(** * Transformers and the make-transformations pass of quicktype

    A shallow embedding of [MakeTransformations.ts] ([replace]) and
    [Transformers.ts] ([Transformer], [DecodingTransformer],
    [UnionInstantiationTransformer], [Transformation] and the
    "transformation" attribute kind).

    TypeScript's static types are erased when the program runs, so the
    embedding follows the run-time behaviour: a constructor binds its
    parameters to the arguments by position, a property holds whatever value
    was bound to it, and a method call on a value that has no such method
    throws.  Thrown errors are results of type [Result]. *)

From Stdlib Require Import List String ZArith Bool Arith Lia.
Import ListNotations.
Open Scope string_scope.

(** ** Support.ts: errors *)

(** Modelled from the spec: [panic], [assert] and [defined] of Support.ts,
    which is not among the sources.  All three abort synchronously; the
    constructor records which of them threw.  [TypeError] is the error of the
    language itself for a call of a method the receiver does not have. *)
Inductive Error : Type :=
| Panic (message : string)
| AssertionFailure (message : string)
| TypeError (message : string).

Inductive Result (A : Type) : Type :=
| Ok (a : A)
| Throw (e : Error).

Arguments Ok {A} a.
Arguments Throw {A} e.

Definition panic {A : Type} (message : string) : Result A :=
  Throw (Panic message).

Definition rbind {A B : Type} (r : Result A) (k : A -> Result B) : Result B :=
  match r with
  | Ok a => k a
  | Throw e => Throw e
  end.

Declare Scope result_scope.
Delimit Scope result_scope with result.
Notation "'let?' x ':=' r 'in' k" := (rbind r (fun x => k))
  (at level 10, x name, r at level 100, k at level 200) : result_scope.
Open Scope result_scope.

(** ** Type.ts, TypeBuilder.ts: types, references, graphs *)

(** Modelled from the spec: a [TypeRef] is a handle on one node of one graph
    generation and is compared by node identity; here it is the node's index
    in its generation. *)
Definition TypeRef : Type := nat.

(** Modelled from the spec: the kinds of section 3 (primitives null,
    integer, double, bool, string, any; composites array, map, class, enum,
    union). *)
Inductive TypeKind : Type :=
| Knull | Kinteger | Kdouble | Kbool | Kstring | Kany
| Karray | Kmap | Kclass | Kenum | Kunion.

Definition TypeKind_eqb (a b : TypeKind) : bool :=
  match a, b with
  | Knull, Knull | Kinteger, Kinteger | Kdouble, Kdouble | Kbool, Kbool
  | Kstring, Kstring | Kany, Kany | Karray, Karray | Kmap, Kmap
  | Kclass, Kclass | Kenum, Kenum | Kunion, Kunion => true
  | _, _ => false
  end.

(** ** Transformers.ts: the Transformer hierarchy *)

(** [Value] is the part of the universe of run-time values that can reach a
    transformer: [equals] takes [other: any], and a slot of a
    [DecodingTransformer] holds the value its constructor was called with.
    [VObject id] is an object that is neither a [TypeRef] nor a
    [Transformer], known by its identity. *)
Inductive Transformer : Type :=
| DecodingTransformer
    (nullTransformer integerTransformer doubleTransformer boolTransformer
     stringTransformer arrayTransformer objectTransformer : Value)
| UnionInstantiationTransformer (_unionRef : TypeRef)
with Value : Type :=
| VUndefined
| VNull
| VTypeRef (r : TypeRef)
| VTransformer (t : Transformer)
| VObject (id : nat).

Scheme Transformer_Value_ind := Induction for Transformer Sort Prop
  with Value_Transformer_ind := Induction for Value Sort Prop.
Combined Scheme Transformer_Value_mutind
  from Transformer_Value_ind, Value_Transformer_ind.

(** [x === undefined] *)
Definition isUndefined (v : Value) : bool :=
  match v with
  | VUndefined => true
  | _ => false
  end.

Record Transformation : Type := new_Transformation {
  _targetTypeRef : TypeRef;
  transformer : Transformer
}.

(** ** TypeAttributes.ts: attributes *)

(** Modelled from the spec: an attribute map goes from attribute kinds to
    values, with at most one value per kind; a kind is known by its name.
    Only the "transformation" kind has a payload this core looks into. *)
Inductive AttributeValue : Type :=
| TransformationValue (xf : Transformation)
| OpaqueValue (payload : string).

Definition TypeAttributes : Type := list (string * AttributeValue).

Definition makeAttributes (kindName : string) (value : AttributeValue)
  : TypeAttributes :=
  [(kindName, value)].

Definition tryGetInAttributes (kindName : string) (a : TypeAttributes)
  : option AttributeValue :=
  option_map snd (find (fun kv => String.eqb (fst kv) kindName) a).

(** Modelled from the spec: a [Type] is a graph node with a kind and an
    attribute map; a union has members, stored as references.  [typeRef] is
    the node's own reference, which is its identity. *)
Record Type_ : Type := mkType {
  typeRef : TypeRef;
  kind : TypeKind;
  memberRefs : list TypeRef;
  getAttributes : TypeAttributes
}.

(** [t instanceof UnionType] *)
Definition isUnionType (t : Type_) : bool := TypeKind_eqb (kind t) Kunion.

(** Modelled from the spec: a graph generation is an arena of nodes; an entry
    [None] is a forwarding reference that is not bound to a node yet. *)
Definition TypeGraph : Type := list (option Type_).

(** Modelled from the spec: [TypeRef.deref()] yields the node and its
    attributes, or aborts when the reference is bound to no node. *)
Definition deref (graph : TypeGraph) (r : TypeRef)
  : Result (Type_ * TypeAttributes) :=
  match nth_error graph r with
  | Some (Some t) => Ok (t, getAttributes t)
  | _ => panic "Trying to deref an undefined type"
  end.

(** ** immutable: OrderedSet<Type> *)

(** An insertion-ordered set of nodes; two nodes are the same element when
    they are the same node, that is when their references are equal. *)
Module OrderedSet.

Definition t : Type := list Type_.

Definition empty : t := [].

Definition has (s : t) (x : Type_) : bool :=
  existsb (fun y => Nat.eqb (typeRef y) (typeRef x)) s.

Definition add (s : t) (x : Type_) : t :=
  if has s x then s else (s ++ [x])%list.

Definition union (s s' : t) : t := fold_left add s' s.

Definition of_list (l : list Type_) : t := union empty l.

(** No node occurs twice. *)
Definition distinct (s : t) : Prop := NoDup (map typeRef s).

End OrderedSet.

Section Transformers.

(** The generation the references of the transformers are bound to. *)
Variable graph : TypeGraph.

(** [get unionType()] of [UnionInstantiationTransformer]. *)
Definition unionType (_unionRef : TypeRef) : Result Type_ :=
  let? d := deref graph _unionRef in
  let t := fst d in
  if negb (isUnionType t) then
    panic "Union instantiator with the wrong type"
  else Ok t.

(** One [if (this.xTransformer !== undefined) children =
    children.union(this.xTransformer.getChildren())] of
    [DecodingTransformer.getChildren]; [slotChildren] is the result of the
    call on the slot, looked at only when the slot is defined. *)
Definition unionChildren (children : OrderedSet.t) (slot : Value)
    (slotChildren : Result OrderedSet.t) : Result OrderedSet.t :=
  if negb (isUndefined slot) then
    let? cs := slotChildren in Ok (OrderedSet.union children cs)
  else Ok children.

(** [getChildren] of both variants, and the call [v.getChildren()] on a
    value: only a [Transformer] has the method. *)
Fixpoint getChildren (t : Transformer) : Result OrderedSet.t :=
  match t with
  | DecodingTransformer n i d b s a o =>
      let children := OrderedSet.empty in
      let? children := unionChildren children n (Value_getChildren n) in
      let? children := unionChildren children i (Value_getChildren i) in
      let? children := unionChildren children d (Value_getChildren d) in
      let? children := unionChildren children b (Value_getChildren b) in
      let? children := unionChildren children s (Value_getChildren s) in
      let? children := unionChildren children a (Value_getChildren a) in
      let? children := unionChildren children o (Value_getChildren o) in
      Ok children
  | UnionInstantiationTransformer r =>
      let? u := unionType r in Ok (OrderedSet.of_list [u])
  end
with Value_getChildren (v : Value) : Result OrderedSet.t :=
  match v with
  | VTransformer t => getChildren t
  | _ => Throw (TypeError "getChildren is not a function")
  end.

(** [get targetType()] and [getChildren] of [Transformation]. *)
Definition targetType (xf : Transformation) : Result Type_ :=
  let? d := deref graph (_targetTypeRef xf) in Ok (fst d).

Definition Transformation_getChildren (xf : Transformation)
  : Result OrderedSet.t :=
  let? children := getChildren (transformer xf) in
  let? target := targetType xf in
  Ok (OrderedSet.add children target).

End Transformers.

(** *** equals and hashCode *)

(** Modelled from the spec: [TypeRef.equals] is reference equality. *)
Definition TypeRef_equals (r : TypeRef) (other : Value) : bool :=
  match other with
  | VTypeRef r' => Nat.eqb r r'
  | _ => false
  end.

(** [equals] of both variants and immutable's [is] (here [is_], the name
    being reserved): [is(a, b)] holds when
    [a] and [b] are the same value, or when both are value objects (they
    have [equals] and [hashCode]) and [a.equals(b)]. *)
Fixpoint equals (t : Transformer) (other : Value) : bool :=
  match t with
  | DecodingTransformer n i d b s a o =>
      match other with
      | VTransformer (DecodingTransformer n' i' d' b' s' a' o') =>
          if negb (is_ n n') then false else
          if negb (is_ i i') then false else
          if negb (is_ d d') then false else
          if negb (is_ b b') then false else
          if negb (is_ s s') then false else
          if negb (is_ a a') then false else
          if negb (is_ o o') then false else
          true
      | _ => false
      end
  | UnionInstantiationTransformer r =>
      match other with
      | VTransformer (UnionInstantiationTransformer r') =>
          TypeRef_equals r (VTypeRef r')
      | _ => false
      end
  end
with is_ (a : Value) (b : Value) : bool :=
  match a with
  | VUndefined => match b with VUndefined => true | _ => false end
  | VNull => match b with VNull => true | _ => false end
  | VObject x => match b with VObject y => Nat.eqb x y | _ => false end
  | VTypeRef r => TypeRef_equals r b
  | VTransformer t => equals t b
  end.

Section HashCode.

(** [hashCodeInit] and [addHashCode] of Support.ts, [TypeRef.hashCode] of
    TypeBuilder.ts and immutable's hash of an object that has no
    [hashCode] are not among the sources. *)
Variable hashCodeInit : Z.
Variable addHashCode : Z -> Z -> Z.
Variable TypeRef_hashCode : TypeRef -> Z.
Variable hashJSObj : nat -> Z.

(** [hashCode] of both variants and immutable's [hash]: 0 for [undefined]
    and [null], the object's own [hashCode()] when it has one. *)
Fixpoint hashCode (t : Transformer) : Z :=
  match t with
  | DecodingTransformer n i d b s a o =>
      let h := hashCodeInit in
      let h := addHashCode h (hash n) in
      let h := addHashCode h (hash i) in
      let h := addHashCode h (hash d) in
      let h := addHashCode h (hash b) in
      let h := addHashCode h (hash s) in
      let h := addHashCode h (hash a) in
      let h := addHashCode h (hash o) in
      h
  | UnionInstantiationTransformer r => TypeRef_hashCode r
  end
with hash (v : Value) : Z :=
  match v with
  | VUndefined => 0%Z
  | VNull => 0%Z
  | VTypeRef r => TypeRef_hashCode r
  | VTransformer t => hashCode t
  | VObject id => hashJSObj id
  end.

Definition Transformation_hashCode (xf : Transformation) : Z :=
  let h := TypeRef_hashCode (_targetTypeRef xf) in
  let h := addHashCode h (hashCode (transformer xf)) in
  h.

End HashCode.

(** ** GraphRewriting.ts: the builder, as the core sees it *)

(** A computation on a builder: it reads and updates the builder's state and
    returns a value or throws; the state reached when it throws is kept, as
    the object mutated so far is. *)
Definition Builder (B A : Type) : Type := B -> Result A * B.

Definition ret {B A : Type} (a : A) : Builder B A := fun b => (Ok a, b).

Definition throw {B A : Type} (e : Error) : Builder B A :=
  fun b => (Throw e, b).

Definition bind {B A C : Type} (m : Builder B A) (k : A -> Builder B C)
  : Builder B C :=
  fun b =>
    match m b with
    | (Ok a, b') => k a b'
    | (Throw e, b') => (Throw e, b')
    end.

Definition lift {B A : Type} (r : Result A) : Builder B A := fun b => (r, b).

Declare Scope builder_scope.
Delimit Scope builder_scope with builder.
Notation "x <- m ;; k" := (bind m (fun x => k))
  (at level 61, m at next level, right associativity) : builder_scope.

Fixpoint mapB {B A C : Type} (f : A -> Builder B C) (l : list A)
  : Builder B (list C) :=
  match l with
  | [] => ret []
  | x :: l' =>
      (y <- f x ;; ys <- mapB f l' ;; ret (y :: ys))%builder
  end.

(** The methods of the builders the sources call.  [reconstituteTypeRef]
    belongs to [BaseGraphRewriteBuilder]; [reconstituteType], [getUnionType]
    and [getPrimitiveType] (kind, attributes?, forwardingRef?) are called by
    the replacer on its [GraphRewriteBuilder]. *)
Class BaseGraphRewriteBuilder (B : Type) : Type := {
  reconstituteTypeRef : TypeRef -> Builder B TypeRef
}.

Class GraphRewriteBuilder (B : Type) : Type := {
  GraphRewriteBuilder_base :: BaseGraphRewriteBuilder B;
  reconstituteType : Type_ -> Builder B TypeRef;
  getUnionType : TypeAttributes -> list TypeRef -> Builder B TypeRef;
  getPrimitiveType :
    TypeKind -> option TypeAttributes -> option TypeRef -> Builder B TypeRef
}.

(** *** reconstitute *)

Section Reconstitute.

Context {B : Type} `{BaseGraphRewriteBuilder B}.

Open Scope builder_scope.

(** [reconstitute] of both variants; [Value_reconstitute] is the local
    function [reconstitute(xf)] of [DecodingTransformer.reconstitute]
    together with the call [xf.reconstitute(builder)], which only a
    [Transformer] answers.  The arguments of [new DecodingTransformer] are
    evaluated from left to right. *)
Fixpoint reconstitute (t : Transformer) : Builder B Transformer :=
  match t with
  | DecodingTransformer n i d b s a o =>
      n' <- Value_reconstitute n ;;
      i' <- Value_reconstitute i ;;
      d' <- Value_reconstitute d ;;
      b' <- Value_reconstitute b ;;
      s' <- Value_reconstitute s ;;
      a' <- Value_reconstitute a ;;
      o' <- Value_reconstitute o ;;
      ret (DecodingTransformer n' i' d' b' s' a' o')
  | UnionInstantiationTransformer r =>
      r' <- reconstituteTypeRef r ;;
      ret (UnionInstantiationTransformer r')
  end
with Value_reconstitute (xf : Value) : Builder B Value :=
  match xf with
  | VUndefined => ret VUndefined
  | VTransformer t => t' <- reconstitute t ;; ret (VTransformer t')
  | _ => throw (TypeError "reconstitute is not a function")
  end.

Definition Transformation_reconstitute (xf : Transformation)
  : Builder B Transformation :=
  r' <- reconstituteTypeRef (_targetTypeRef xf) ;;
  t' <- reconstitute (transformer xf) ;;
  ret (new_Transformation r' t').

(** The builder sends the reference [r] to [f r] from every state that
    satisfies [inv], and keeps [inv]: the identity cache of a pass. *)
Definition imageUnder (f : TypeRef -> TypeRef) (inv : B -> Prop)
    (r : TypeRef) : Prop :=
  forall b, inv b ->
            exists b', reconstituteTypeRef r b = (Ok (f r), b') /\ inv b'.

End Reconstitute.

(** *** The "transformation" attribute kind *)

Module TransformationTypeAttributeKind.

Definition name : string := "transformation".

Definition inIdentity : bool := true.

Definition children (graph : TypeGraph) (xf : Transformation)
  : Result OrderedSet.t :=
  Transformation_getChildren graph xf.

Definition reconstitute {B : Type} `{BaseGraphRewriteBuilder B}
    (xf : Transformation) : Builder B Transformation :=
  Transformation_reconstitute xf.

Definition stringify (_ : Transformation) : string := "transformation".

Definition makeAttributes (xf : Transformation) : TypeAttributes :=
  makeAttributes name (TransformationValue xf).

Definition tryGetInAttributes (a : TypeAttributes)
  : option Transformation :=
  match tryGetInAttributes name a with
  | Some (TransformationValue xf) => Some xf
  | _ => None
  end.

End TransformationTypeAttributeKind.

Definition transformationForType (t : Type_) : option Transformation :=
  TransformationTypeAttributeKind.tryGetInAttributes (getAttributes t).

(** ** MakeTransformations.ts: the replacer *)

(** Modelled from the spec: [defined] and [assert] of Support.ts. *)
Definition defined {A : Type} (x : option A) : Result A :=
  match x with
  | Some a => Ok a
  | None => panic "Defined value expected, but got undefined"
  end.

Definition assert (condition : bool) (message : string) : Result unit :=
  if condition then Ok tt else Throw (AssertionFailure message).

(** Modelled from the spec: [UnionType.members] are the nodes the member
    references are bound to, and [findMember(kind)] is the member of that
    kind, if there is one. *)
Fixpoint derefAll (graph : TypeGraph) (rs : list TypeRef)
  : Result (list Type_) :=
  match rs with
  | [] => Ok []
  | r :: rs' =>
      let? d := deref graph r in
      let? ts := derefAll graph rs' in
      Ok (fst d :: ts)
  end.

Definition members (graph : TypeGraph) (union : Type_) : Result (list Type_) :=
  derefAll graph (memberRefs union).

Definition isEmpty {A : Type} (l : list A) : bool :=
  match l with
  | [] => true
  | _ => false
  end.

Definition findMember (ms : list Type_) (k : TypeKind) : option Type_ :=
  find (fun t => TypeKind_eqb (kind t) k) ms.

(** [new C(a1, ..., an)]: the constructor's parameters are bound to the
    arguments by position; a parameter without an argument is [undefined] and
    an argument without a parameter is dropped.  [DecodingTransformer] has
    seven parameters. *)
Definition new_DecodingTransformer (args : list Value) : Transformer :=
  let arg (k : nat) := nth k args VUndefined in
  DecodingTransformer (arg 0) (arg 1) (arg 2) (arg 3) (arg 4) (arg 5) (arg 6).

(** [UnionInstantiationTransformer] has one parameter, [_unionRef]; [rest]
    are the arguments after the first, which have no parameter. *)
Definition new_UnionInstantiationTransformer (_unionRef : TypeRef)
    (rest : list Value) : Transformer :=
  UnionInstantiationTransformer _unionRef.

Section MakeTransformations.

Context {B : Type} `{GraphRewriteBuilder B}.

(** The old generation, to which the union of the group belongs. *)
Variable graph : TypeGraph.

Open Scope builder_scope.

(** [transformerForKind], the local function of [replace]. *)
Definition transformerForKind (ms : list Type_)
    (reconstitutedUnion : TypeRef) (k : TypeKind) : Builder B Value :=
  match findMember ms k with
  | None => ret VUndefined
  | Some member =>
      r <- reconstituteType member ;;
      ret (VTransformer
             (new_UnionInstantiationTransformer r
                [VTypeRef reconstitutedUnion]))
  end.

(** [replace]; the builder is the state of the computation.  The member
    nodes of the union are read once, the arguments of
    [new DecodingTransformer] are evaluated from left to right, and the
    constructors are called with the arguments the source gives them: eight
    for [DecodingTransformer], two for [UnionInstantiationTransformer]. *)
Definition replace (setOfOneUnion : list Type_) (forwardingRef : TypeRef)
  : Builder B TypeRef :=
  union <- lift (defined (hd_error setOfOneUnion)) ;;
  ms <- lift (members graph union) ;;
  _ <- lift (assert (negb (isEmpty ms)) "We can't have empty unions") ;;
  rs <- mapB reconstituteType ms ;;
  reconstitutedUnion <- getUnionType (getAttributes union) rs ;;
  a0 <- getPrimitiveType Kany None None ;;
  a1 <- transformerForKind ms reconstitutedUnion Knull ;;
  a2 <- transformerForKind ms reconstitutedUnion Kinteger ;;
  a3 <- transformerForKind ms reconstitutedUnion Kdouble ;;
  a4 <- transformerForKind ms reconstitutedUnion Kbool ;;
  a5 <- transformerForKind ms reconstitutedUnion Kstring ;;
  let transformer :=
    new_DecodingTransformer
      [VTypeRef a0; a1; a2; a3; a4; a5; VUndefined; VUndefined] in
  let transformation := new_Transformation reconstitutedUnion transformer in
  let attributes :=
    TransformationTypeAttributeKind.makeAttributes transformation in
  getPrimitiveType Kany (Some attributes) (Some forwardingRef).

End MakeTransformations.

(** ** A builder over an arena *)

(** Modelled from the spec: the graph rewrite builder of GraphRewriting.ts
    and TypeBuilder.ts, which are not among the sources, as far as section
    4.2 describes it and for the old nodes that have no children (the
    primitives and enums the unions of this development are made of).  It
    holds the old generation, the new generation under construction and the
    per-pass identity cache from old nodes to new references. *)
Record ArenaBuilder : Type := mkArenaBuilder {
  original : TypeGraph;
  types : TypeGraph;
  reconstituted : list (TypeRef * TypeRef)
}.

Module Arena.

Open Scope builder_scope.

Definition setTypes (ts : TypeGraph) (b : ArenaBuilder) : ArenaBuilder :=
  mkArenaBuilder (original b) ts (reconstituted b).

Fixpoint setNth {A : Type} (k : nat) (x : A) (l : list A) : list A :=
  match l, k with
  | [], _ => []
  | _ :: l', O => x :: l'
  | y :: l', S k' => y :: setNth k' x l'
  end.

(** Modelled from the spec: a forwarding reference is a slot of the new
    generation that is not bound to a node yet. *)
Definition reserveTypeRef : Builder ArenaBuilder TypeRef :=
  fun b => (Ok (List.length (types b)), setTypes (types b ++ [None])%list b).

(** Modelled from the spec: a new node is written into the forwarding slot
    the caller supplies, or into a fresh slot. *)
Definition addType (forwardingRef : option TypeRef)
    (create : TypeRef -> Type_) : Builder ArenaBuilder TypeRef :=
  fun b =>
    match forwardingRef with
    | None =>
        let r := List.length (types b) in
        (Ok r, setTypes (types b ++ [Some (create r)])%list b)
    | Some f =>
        match nth_error (types b) f with
        | Some None => (Ok f, setTypes (setNth f (Some (create f)) (types b)) b)
        | _ => (Throw (AssertionFailure "Forwarding reference is not free"), b)
        end
    end.

Definition getPrimitiveType (k : TypeKind) (attributes : option TypeAttributes)
    (forwardingRef : option TypeRef) : Builder ArenaBuilder TypeRef :=
  addType forwardingRef
    (fun r => mkType r k []
                match attributes with Some a => a | None => [] end).

Fixpoint distinct (ks : list TypeKind) : bool :=
  match ks with
  | [] => true
  | k :: ks' => negb (existsb (TypeKind_eqb k) ks') && distinct ks'
  end.

(** Modelled from the spec: [getUnionType] builds a union, asserting
    non-emptiness and distinct member kinds. *)
Definition getUnionType (attributes : TypeAttributes)
    (memberRefs : list TypeRef) : Builder ArenaBuilder TypeRef :=
  ms <- (fun b => (derefAll (types b) memberRefs, b)) ;;
  _ <- lift (assert (negb (isEmpty ms)) "Union has no members") ;;
  _ <- lift (assert (distinct (map kind ms))
               "Union has members of the same kind") ;;
  addType None (fun r => mkType r Kunion memberRefs attributes).

Definition lookup (old : TypeRef) (cache : list (TypeRef * TypeRef))
  : option TypeRef :=
  option_map snd (find (fun p => Nat.eqb (fst p) old) cache).

Definition remember (old new : TypeRef) : Builder ArenaBuilder unit :=
  fun b =>
    (Ok tt,
     mkArenaBuilder (original b) (types b) ((old, new) :: reconstituted b)).

Definition isLeaf (t : Type_) : bool :=
  match kind t with
  | Karray | Kmap | Kclass | Kunion => false
  | _ => true
  end.

(** Modelled from the spec: [reconstituteType] returns the reference of the
    copy of an old node in the new generation, the same reference each
    time it is called on the same node.  Only nodes without children and
    without a transformation are copied by this model. *)
Definition reconstituteType (t : Type_) : Builder ArenaBuilder TypeRef :=
  fun b =>
    match lookup (typeRef t) (reconstituted b) with
    | Some r => (Ok r, b)
    | None =>
        match isLeaf t, transformationForType t with
        | true, None =>
            (r <- addType None (fun r => mkType r (kind t) [] (getAttributes t)) ;;
             _ <- remember (typeRef t) r ;;
             ret r) b
        | _, _ => (panic "Node outside the arena model", b)
        end
    end.

Definition reconstituteTypeRef (r : TypeRef) : Builder ArenaBuilder TypeRef :=
  d <- (fun b => (deref (original b) r, b)) ;;
  reconstituteType (fst d).

End Arena.

#[export] Instance ArenaBuilder_base : BaseGraphRewriteBuilder ArenaBuilder := {
  reconstituteTypeRef := Arena.reconstituteTypeRef
}.

#[export] Instance ArenaBuilder_rewrite : GraphRewriteBuilder ArenaBuilder := {
  GraphRewriteBuilder_base := ArenaBuilder_base;
  reconstituteType := Arena.reconstituteType;
  getUnionType := Arena.getUnionType;
  getPrimitiveType := Arena.getPrimitiveType
}.

(** *** Scenarios *)

Module Scenario.

Definition primitive (r : TypeRef) (k : TypeKind) : option Type_ :=
  Some (mkType r k [] []).

(** Scenario A: [integer | string]. *)
Definition graphA : TypeGraph :=
  [primitive 0 Kinteger; primitive 1 Kstring;
   Some (mkType 2 Kunion [0; 1] [])].

Definition unionA : Type_ := mkType 2 Kunion [0; 1] [].

(** Scenario B: [null | integer | double | bool | string]. *)
Definition graphB : TypeGraph :=
  [primitive 0 Knull; primitive 1 Kinteger; primitive 2 Kdouble;
   primitive 3 Kbool; primitive 4 Kstring;
   Some (mkType 5 Kunion [0; 1; 2; 3; 4] [])].

Definition unionB : Type_ := mkType 5 Kunion [0; 1; 2; 3; 4] [].

(** A union without members. *)
Definition graphE : TypeGraph := [Some (mkType 0 Kunion [] [])].

Definition unionE : Type_ := mkType 0 Kunion [] [].

(** The builder of a pass over [g] that has allocated the forwarding
    reference of one group, which is reference 0 of the new generation. *)
Definition start (g : TypeGraph) : ArenaBuilder :=
  snd (Arena.reserveTypeRef (mkArenaBuilder g [] [])).

Definition run (g : TypeGraph) (u : Type_) : Result TypeRef * ArenaBuilder :=
  replace g [u] 0 (start g).

(** The transformation attached to the node a reference is bound to. *)
Definition transformationAt (g : TypeGraph) (r : TypeRef)
  : option Transformation :=
  match deref g r with
  | Ok d => transformationForType (fst d)
  | Throw _ => None
  end.

End Scenario.

(** ** Vocabulary of the statements *)

(** The properties of a transformer as read by a consumer; a property an
    object does not have reads as [undefined]. *)
Definition slots (t : Transformer) : list Value :=
  match t with
  | DecodingTransformer n i d b s a o => [n; i; d; b; s; a; o]
  | UnionInstantiationTransformer _ => []
  end.

Definition slot (k : nat) (t : Transformer) : Value := nth k (slots t) VUndefined.

Definition nullTransformer : Transformer -> Value := slot 0.
Definition integerTransformer : Transformer -> Value := slot 1.
Definition doubleTransformer : Transformer -> Value := slot 2.
Definition boolTransformer : Transformer -> Value := slot 3.
Definition stringTransformer : Transformer -> Value := slot 4.
Definition arrayTransformer : Transformer -> Value := slot 5.
Definition objectTransformer : Transformer -> Value := slot 6.

(** The slots that are not [undefined]. *)
Definition definedSlots (t : Transformer) : list Value :=
  filter (fun v => negb (isUndefined v)) (slots t).

(** [other instanceof C], for [C] the class of [t]. *)
Definition instanceOfClassOf (t : Transformer) (other : Value) : bool :=
  match t, other with
  | DecodingTransformer _ _ _ _ _ _ _,
    VTransformer (DecodingTransformer _ _ _ _ _ _ _) => true
  | UnionInstantiationTransformer _,
    VTransformer (UnionInstantiationTransformer _) => true
  | _, _ => false
  end.

(** A transformer as the declarations type it: every slot of a
    [DecodingTransformer] is [undefined] or a [Transformer] of that kind. *)
Fixpoint wellTyped (t : Transformer) : bool :=
  match t with
  | DecodingTransformer n i d b s a o =>
      Value_wellTyped n && Value_wellTyped i && Value_wellTyped d
      && Value_wellTyped b && Value_wellTyped s && Value_wellTyped a
      && Value_wellTyped o
  | UnionInstantiationTransformer _ => true
  end
with Value_wellTyped (v : Value) : bool :=
  match v with
  | VUndefined => true
  | VTransformer t => wellTyped t
  | _ => false
  end.

(** The references a transformer holds, from left to right. *)
Fixpoint typeRefs (t : Transformer) : list TypeRef :=
  match t with
  | DecodingTransformer n i d b s a o =>
      (Value_typeRefs n ++ Value_typeRefs i ++ Value_typeRefs d
       ++ Value_typeRefs b ++ Value_typeRefs s ++ Value_typeRefs a
       ++ Value_typeRefs o)%list
  | UnionInstantiationTransformer r => [r]
  end
with Value_typeRefs (v : Value) : list TypeRef :=
  match v with
  | VTransformer t => typeRefs t
  | _ => []
  end.

(** What the specification asks of [reconstitute]: the same variant, every
    reference replaced by its image [f], every nested transformer treated
    the same way, nothing else changed. *)
Fixpoint mapTypeRefs (f : TypeRef -> TypeRef) (t : Transformer) : Transformer :=
  match t with
  | DecodingTransformer n i d b s a o =>
      DecodingTransformer
        (Value_mapTypeRefs f n) (Value_mapTypeRefs f i) (Value_mapTypeRefs f d)
        (Value_mapTypeRefs f b) (Value_mapTypeRefs f s) (Value_mapTypeRefs f a)
        (Value_mapTypeRefs f o)
  | UnionInstantiationTransformer r => UnionInstantiationTransformer (f r)
  end
with Value_mapTypeRefs (f : TypeRef -> TypeRef) (v : Value) : Value :=
  match v with
  | VTransformer t => VTransformer (mapTypeRefs f t)
  | _ => v
  end.

Definition Transformation_mapTypeRefs (f : TypeRef -> TypeRef)
    (xf : Transformation) : Transformation :=
  new_Transformation (f (_targetTypeRef xf)) (mapTypeRefs f (transformer xf)).

(** The children of the defined slots, united from left to right. *)
Fixpoint unionAll (graph : TypeGraph) (vs : list Value)
    (children : OrderedSet.t) : Result OrderedSet.t :=
  match vs with
  | [] => Ok children
  | v :: vs' =>
      let? children :=
        unionChildren children v (Value_getChildren graph v) in
      unionAll graph vs' children
  end.

(** ** The rest of the two modules *)

(** *** Transformation: equals *)

(** The argument of [Transformation.equals(other: any)]: a value of [Value]
    or a [Transformation]. *)
Inductive Any : Type :=
| AValue (v : Value)
| ATransformation (xf : Transformation).

Definition Transformation_equals (xf : Transformation) (other : Any) : bool :=
  match other with
  | ATransformation xf' =>
      TypeRef_equals (_targetTypeRef xf) (VTypeRef (_targetTypeRef xf'))
      && equals (transformer xf) (VTransformer (transformer xf'))
  | AValue _ => false
  end.

(** A reference is bound to a union of the generation. *)
Definition boundToUnion (graph : TypeGraph) (r : TypeRef) : Prop :=
  exists u attributes,
    deref graph r = Ok (u, attributes) /\ isUnionType u = true.

(** What [getChildren] has to return for the references [refs]: every one
    is bound to a union, and the set holds, once each, exactly the nodes they
    are bound to. *)
Definition childrenOf (graph : TypeGraph) (refs : list TypeRef)
    (cs : OrderedSet.t) : Prop :=
  (forall r, In r refs -> boundToUnion graph r)
  /\ OrderedSet.distinct cs
  /\ forall x,
      OrderedSet.has cs x = true <->
      exists r u attributes,
        In r refs /\ deref graph r = Ok (u, attributes)
        /\ typeRef u = typeRef x.

(** A reference is bound to a node of the generation. *)
Definition bound (graph : TypeGraph) (r : TypeRef) : Prop :=
  exists t attributes, deref graph r = Ok (t, attributes).

(** *** makeTransformations *)

(** [TargetLanguage], as far as the pass uses it. *)
Record TargetLanguage : Type := {
  needsTransformerForUnion : Type_ -> bool
}.

(** Modelled from the spec: [allTypesUnordered] enumerates the nodes of the
    graph, in no order that matters; here in the order of the arena. *)
Definition allTypesUnordered (graph : TypeGraph) : list Type_ :=
  flat_map (fun entry => match entry with Some t => [t] | None => [] end) graph.

Section MakeTransformationsPass.

Context {B : Type} `{GraphRewriteBuilder B}.

(** [StringTypeMapping] is passed on as it is; [TypeGraph.rewrite] (title,
    string type mapping, alphabetizeProperties, groups, debug flag, replacer)
    is not among the sources. *)
Variable StringTypeMapping : Type.
Variable rewrite :
  TypeGraph -> string -> StringTypeMapping -> bool -> list (list Type_) ->
  bool -> (list Type_ -> TypeRef -> Builder B TypeRef) -> Result TypeGraph.

Definition makeTransformations (graph : TypeGraph)
    (stringTypeMapping : StringTypeMapping) (targetLanguage : TargetLanguage)
    (debugPrintReconstitution : bool) : Result TypeGraph :=
  let unions :=
    filter (fun t => isUnionType t && needsTransformerForUnion targetLanguage t)
      (allTypesUnordered graph) in
  let groups := map (fun t => [t]) unions in
  rewrite graph "make-transformatios" stringTypeMapping false groups
    debugPrintReconstitution (replace graph).

End MakeTransformationsPass.

(** ** Scala.ts: the current file of the renderer *)

Section ScalaRenderer.

(** [Sourcelike], the state of the renderer the class extends,
    [sourcelikeToString] and the [finishFile] of that renderer are not among
    the sources. *)
Variable Sourcelike : Type.
Variable Base : Type.
Variable sourcelikeToString : Base -> Sourcelike -> string.
Variable super_finishFile : string -> Builder Base unit.

Record ScalaRenderer : Type := mkScalaRenderer {
  super : Base;
  _currentFilename : option string
}.

Definition startFile (basename : Sourcelike) : Builder ScalaRenderer unit :=
  fun this =>
    match
      assert (match _currentFilename this with None => true | Some _ => false end)
        "Previous file wasn't finished"
    with
    | Throw e => (Throw e, this)
    | Ok _ =>
        (Ok tt,
         mkScalaRenderer (super this)
           (Some (sourcelikeToString (super this) basename ++ ".scala")))
    end.

Definition finishFile : Builder ScalaRenderer unit :=
  fun this =>
    match defined (_currentFilename this) with
    | Throw e => (Throw e, this)
    | Ok filename =>
        match super_finishFile filename (super this) with
        | (Throw e, base) => (Throw e, mkScalaRenderer base (_currentFilename this))
        | (Ok _, base) => (Ok tt, mkScalaRenderer base None)
        end
    end.

End ScalaRenderer.

Module ScalaExample.

(** A renderer that keeps the names of the files it has finished. *)
Definition finish (filename : string) : Builder (list string) unit :=
  fun files => (Ok tt, (files ++ [filename])%list).

Definition toString (_ : list string) (s : string) : string := s.

End ScalaExample.

(** ** Examples *)

Module EqualsExample.

(** Two trees built one after the other, with the same fields. *)
Definition first : Transformer :=
  DecodingTransformer VUndefined
    (VTransformer (UnionInstantiationTransformer 3)) VUndefined VUndefined
    (VTransformer (UnionInstantiationTransformer 3)) VUndefined VUndefined.

Definition second : Transformer :=
  DecodingTransformer VUndefined
    (VTransformer (UnionInstantiationTransformer 3)) VUndefined VUndefined
    (VTransformer (UnionInstantiationTransformer 3)) VUndefined VUndefined.

Definition instantiator : Transformer := UnionInstantiationTransformer 0.

(** A hash combination on unbounded integers, to run [hashCode] on. *)
Definition addHashCode (acc h : Z) : Z := (acc * 31 + h)%Z.

End EqualsExample.

Module GetChildrenExample.

(** Two unions over one string node. *)
Definition string0 : Type_ := mkType 0 Kstring [] [].
Definition union1 : Type_ := mkType 1 Kunion [0] [].
Definition union2 : Type_ := mkType 2 Kunion [0] [].
Definition graph : TypeGraph := [Some string0; Some union1; Some union2].

Definition decoding : Transformer :=
  DecodingTransformer
    VUndefined
    (VTransformer (UnionInstantiationTransformer 2))
    VUndefined
    VUndefined
    (VTransformer (UnionInstantiationTransformer 1))
    (VTransformer (UnionInstantiationTransformer 2))
    VUndefined.

End GetChildrenExample.

Module TransformationExample.

(** The five scalars, their union, and the transformation the pass is after:
    every scalar slot instantiates the union. *)
Definition graph : TypeGraph :=
  [Some (mkType 0 Knull [] []); Some (mkType 1 Kinteger [] []);
   Some (mkType 2 Kdouble [] []); Some (mkType 3 Kbool [] []);
   Some (mkType 4 Kstring [] []); Some (mkType 5 Kunion [0; 1; 2; 3; 4] [])].

Definition union5 : Type_ := mkType 5 Kunion [0; 1; 2; 3; 4] [].

Definition instantiate : Value :=
  VTransformer (UnionInstantiationTransformer 5).

Definition decoding : Transformer :=
  DecodingTransformer instantiate instantiate instantiate instantiate
    instantiate VUndefined VUndefined.

End TransformationExample.

Module ReconstituteExample.

(** A pass over [GetChildrenExample.graph] that has already reconstituted
    the two unions, as references 4 and 5 of the new generation. *)
Definition builder : ArenaBuilder :=
  mkArenaBuilder GetChildrenExample.graph
    [None; None; None; Some (mkType 3 Kstring [] []);
     Some (mkType 4 Kunion [3] []); Some (mkType 5 Kunion [3] [])]
    [(2, 5); (1, 4); (0, 3)].

Definition image (r : TypeRef) : TypeRef := r + 3.

Definition inv (b : ArenaBuilder) : Prop := b = builder.

End ReconstituteExample.

Module SecondPassExample.

(** The generation [ReconstituteExample.builder] builds, and a later pass
    over it that has reconstituted its two unions as references 1 and 2. *)
Definition graph : TypeGraph :=
  [None; None; None; Some (mkType 3 Kstring [] []);
   Some (mkType 4 Kunion [3] []); Some (mkType 5 Kunion [3] [])].

Definition builder : ArenaBuilder :=
  mkArenaBuilder graph
    [Some (mkType 0 Kstring [] []); Some (mkType 1 Kunion [0] []);
     Some (mkType 2 Kunion [0] [])]
    [(5, 2); (4, 1); (3, 0)].

Definition image (r : TypeRef) : TypeRef := r - 3.

Definition inv (b : ArenaBuilder) : Prop := b = builder.

(** A transformer with a reference where a transformer belongs. *)
Definition illTyped : Transformer :=
  DecodingTransformer (VTransformer (UnionInstantiationTransformer 1))
    (VTypeRef 2) VUndefined VUndefined VUndefined VUndefined VUndefined.

End SecondPassExample.

(** * Properties *)

(** ** equals and hashCode *)

Lemma TypeRef_equals_true (r : TypeRef) (v : Value) :
  TypeRef_equals r v = true <-> v = VTypeRef r.
Proof.
  destruct v as [ | | r' | t | x]; simpl; split; intro E;
    try discriminate E.
  - apply Nat.eqb_eq in E. now subst.
  - injection E as ->. apply Nat.eqb_refl.
Qed.

Lemma equals_is_true :
  (forall t v, equals t v = true <-> v = VTransformer t)
  /\ (forall a b, is_ a b = true <-> b = a).
Proof.
  apply Transformer_Value_mutind.
  - intros n Hn i Hi d Hd b Hb s Hs a Ha o Ho v.
    destruct v as [ | | r | [n' i' d' b' s' a' o' | r] | x]; simpl;
      try (split; intro E; discriminate E).
    specialize (Hn n'). specialize (Hi i'). specialize (Hd d').
    specialize (Hb b'). specialize (Hs s'). specialize (Ha a').
    specialize (Ho o').
    destruct (is_ n n'); simpl;
      [ | split; [discriminate | intro E; injection E as -> -> -> -> -> -> ->;
                                 now apply Hn] ].
    destruct (is_ i i'); simpl;
      [ | split; [discriminate | intro E; injection E as -> -> -> -> -> -> ->;
                                 now apply Hi] ].
    destruct (is_ d d'); simpl;
      [ | split; [discriminate | intro E; injection E as -> -> -> -> -> -> ->;
                                 now apply Hd] ].
    destruct (is_ b b'); simpl;
      [ | split; [discriminate | intro E; injection E as -> -> -> -> -> -> ->;
                                 now apply Hb] ].
    destruct (is_ s s'); simpl;
      [ | split; [discriminate | intro E; injection E as -> -> -> -> -> -> ->;
                                 now apply Hs] ].
    destruct (is_ a a'); simpl;
      [ | split; [discriminate | intro E; injection E as -> -> -> -> -> -> ->;
                                 now apply Ha] ].
    destruct (is_ o o'); simpl;
      [ | split; [discriminate | intro E; injection E as -> -> -> -> -> -> ->;
                                 now apply Ho] ].
    split; [intros _ | reflexivity].
    rewrite (proj1 Hn eq_refl), (proj1 Hi eq_refl), (proj1 Hd eq_refl),
      (proj1 Hb eq_refl), (proj1 Hs eq_refl), (proj1 Ha eq_refl),
      (proj1 Ho eq_refl).
    reflexivity.
  - intros r v.
    destruct v as [ | | r' | [n' i' d' b' s' a' o' | r'] | x]; simpl;
      try (split; intro E; discriminate E).
    split; intro E.
    + apply Nat.eqb_eq in E. now subst.
    + injection E as ->. apply Nat.eqb_refl.
  - intros [ | | | | ]; simpl; split; intro E; congruence.
  - intros [ | | | | ]; simpl; split; intro E; congruence.
  - intros r b. simpl. apply TypeRef_equals_true.
  - intros t Ht b. simpl. apply Ht.
  - intros x [ | | | | y]; simpl; split; intro E; try congruence.
    + apply Nat.eqb_eq in E. now subst.
    + injection E as ->. apply Nat.eqb_refl.
Qed.

(** C5. [equals] is structural and [hashCode] is consistent with it: two
    transformers are [equals]-equal if and only if they are the same variant
    with equal fields all the way down (references compared as references),
    which is equality of the trees; and two [equals]-equal transformers have
    the same [hashCode], whatever [hashCodeInit], [addHashCode], the hash of
    a reference and the hash of a plain object are. *)
Theorem equals_structural_hash_consistent :
  forall (t t' : Transformer),
    (equals t (VTransformer t') = true <-> t = t')
    /\ (equals t (VTransformer t') = true ->
        forall hashCodeInit addHashCode TypeRef_hashCode hashJSObj,
          hashCode hashCodeInit addHashCode TypeRef_hashCode hashJSObj t
          = hashCode hashCodeInit addHashCode TypeRef_hashCode hashJSObj t').
Proof.
  intros t t'.
  assert (Eq : equals t (VTransformer t') = true <-> t = t').
  { rewrite (proj1 equals_is_true). split; intro E; congruence. }
  split; [exact Eq | ].
  intros E h0 add hr ho. apply Eq in E. now subst.
Qed.

(** C5 at two trees built one after the other. *)
Lemma equals_structural_hash_consistent_witness :
  equals EqualsExample.first (VTransformer EqualsExample.second) = true
  /\ hashCode 17%Z EqualsExample.addHashCode Z.of_nat Z.of_nat
       EqualsExample.first
     = hashCode 17%Z EqualsExample.addHashCode Z.of_nat Z.of_nat
         EqualsExample.second.
Proof.
  split.
  - reflexivity.
  - apply (proj2 (equals_structural_hash_consistent
                    EqualsExample.first EqualsExample.second)).
    reflexivity.
Defined.

(** C10. For every transformer [t] and every value [x] that is not an
    instance of the class of [t] (a transformer of the other variant,
    [null], [undefined], a reference, any other object), [t.equals(x)]
    returns [false]; [equals] is a total function, it throws on no value. *)
Theorem equals_other_class_false :
  forall (t : Transformer) (x : Value),
    instanceOfClassOf t x = false -> equals t x = false.
Proof.
  intros [n i d b s a o | r] [ | | r' | [n' i' d' b' s' a' o' | r'] | y];
    simpl; intro E; try reflexivity; discriminate E.
Qed.

Lemma equals_other_class_false_witness :
  equals EqualsExample.first (VTransformer EqualsExample.instantiator) = false
  /\ equals EqualsExample.instantiator (VTransformer EqualsExample.first)
     = false
  /\ equals EqualsExample.first VNull = false
  /\ equals EqualsExample.instantiator VUndefined = false
  /\ equals EqualsExample.first (VObject 7) = false.
Proof.
  split; [ | split; [ | split; [ | split]]];
    apply equals_other_class_false; reflexivity.
Defined.

(** ** getChildren *)

Module OrderedSetFacts.

Import OrderedSet.

Lemma has_app (s s' : t) (x : Type_) :
  has (s ++ s')%list x = has s x || has s' x.
Proof. unfold has. apply existsb_app. Qed.

Lemma has_add (s : t) (y x : Type_) :
  has (add s y) x = has s x || Nat.eqb (typeRef y) (typeRef x).
Proof.
  unfold add. destruct (has s y) eqn:Hy.
  - destruct (Nat.eqb (typeRef y) (typeRef x)) eqn:E.
    + apply Nat.eqb_eq in E. unfold has in *. rewrite <- E, Hy. reflexivity.
    + now rewrite orb_false_r.
  - rewrite has_app. simpl. now rewrite orb_false_r.
Qed.

Lemma has_union (s' s : t) (x : Type_) :
  has (union s s') x = has s x || has s' x.
Proof.
  unfold union. revert s.
  induction s' as [ | y s' IH]; intro s; simpl.
  - now rewrite orb_false_r.
  - rewrite IH, has_add. now rewrite orb_assoc.
Qed.

Lemma has_In (s : t) (x : Type_) :
  has s x = true <-> In (typeRef x) (map typeRef s).
Proof.
  unfold has. rewrite existsb_exists, in_map_iff.
  split; intros [y [H1 H2]]; exists y.
  - apply Nat.eqb_eq in H2. now split.
  - split; [exact H2 | now apply Nat.eqb_eq].
Qed.

Lemma distinct_add (s : t) (y : Type_) : distinct s -> distinct (add s y).
Proof.
  unfold add, distinct. intro D. destruct (has s y) eqn:Hy; [exact D | ].
  rewrite map_app. simpl.
  apply NoDup_app; [exact D | repeat constructor; intros [] | ].
  intros r Hr [E | []]. subst r.
  apply has_In in Hr. congruence.
Qed.

Lemma distinct_union (s' s : t) : distinct s -> distinct (union s s').
Proof.
  unfold union. revert s.
  induction s' as [ | y s' IH]; intros s D; simpl; [exact D | ].
  apply IH, distinct_add, D.
Qed.

End OrderedSetFacts.

Section GetChildrenFacts.

Variable graph : TypeGraph.

Lemma getChildren_unionAll (t : Transformer) :
  match t with
  | DecodingTransformer _ _ _ _ _ _ _ =>
      getChildren graph t = unionAll graph (slots t) OrderedSet.empty
  | UnionInstantiationTransformer _ => True
  end.
Proof.
  destruct t as [n i d b s a o | r]; [ | exact I].
  simpl.
  repeat match goal with
         | |- rbind ?m _ = rbind ?m _ => destruct m; simpl; [ | reflexivity]
         end.
  reflexivity.
Qed.

(** The fold over the slots returns as soon as every defined slot does, and
    then holds what it started with and the children of the defined slots. *)
Lemma unionAll_exact (vs : list Value) :
  forall children,
    (forall v, In v vs -> isUndefined v = false ->
               exists cs, Value_getChildren graph v = Ok cs) ->
    exists result,
      unionAll graph vs children = Ok result
      /\ (OrderedSet.distinct children ->
          OrderedSet.distinct result)
      /\ forall x,
          OrderedSet.has result x = true <->
          OrderedSet.has children x = true
          \/ exists v cs, In v vs /\ isUndefined v = false
                          /\ Value_getChildren graph v = Ok cs
                          /\ OrderedSet.has cs x = true.
Proof.
  induction vs as [ | v vs IH]; intros children Hall; simpl.
  - exists children. split; [reflexivity | ]. split; [tauto | ].
    intro x. split; [now left | ].
    intros [Hx | [v [cs [[] _]]]]. exact Hx.
  - unfold unionChildren at 1.
    destruct (isUndefined v) eqn:Hv; simpl.
    + destruct (IH children) as [result [E [D M]]].
      { intros w Hw. apply Hall. now right. }
      exists result. split; [exact E | ]. split; [exact D | ].
      intro x. rewrite M. split.
      * intros [Hx | [w [cs [Hw [Hu [Hc Hx]]]]]]; [now left | right].
        exists w, cs. repeat split; try assumption. now right.
      * intros [Hx | [w [cs [[-> | Hw] [Hu [Hc Hx]]]]]]; [now left | | right].
        -- congruence.
        -- exists w, cs. now repeat split.
    + destruct (Hall v (or_introl eq_refl) Hv) as [cs Hcs].
      rewrite Hcs. simpl.
      destruct (IH (OrderedSet.union children cs)) as [result [E [D M]]].
      { intros w Hw. apply Hall. now right. }
      exists result. split; [exact E | ]. split.
      { intro Dc. apply D, OrderedSetFacts.distinct_union, Dc. }
      intro x. rewrite M, OrderedSetFacts.has_union, orb_true_iff. split.
      * intros [[Hx | Hx] | [w [cs' [Hw [Hu [Hc Hx]]]]]].
        -- now left.
        -- right. exists v, cs. repeat split; try assumption. now left.
        -- right. exists w, cs'. repeat split; try assumption. now right.
      * intros [Hx | [w [cs' [[-> | Hw] [Hu [Hc Hx]]]]]].
        -- left. now left.
        -- left. right. congruence.
        -- right. exists w, cs'. now repeat split.
Qed.

Lemma In_definedSlots (t : Transformer) (v : Value) :
  In v (definedSlots t) <-> In v (slots t) /\ isUndefined v = false.
Proof.
  unfold definedSlots. rewrite filter_In, negb_true_iff. reflexivity.
Qed.

(** C6. For every [DecodingTransformer] whose defined slots answer
    [getChildren], [getChildren] returns a set without repetition whose
    elements are exactly the children of the defined slots: none is left
    out and nothing else is in it.  For every
    [UnionInstantiationTransformer] whose reference is bound to a union,
    [getChildren] returns the set of that union alone. *)
Theorem getChildren_exact :
  (forall n i d b s a o,
      let t := DecodingTransformer n i d b s a o in
      (forall v, In v (definedSlots t) ->
                 exists cs, Value_getChildren graph v = Ok cs) ->
      exists children,
        getChildren graph t = Ok children
        /\ OrderedSet.distinct children
        /\ forall x,
            OrderedSet.has children x = true <->
            exists v cs, In v (definedSlots t)
                         /\ Value_getChildren graph v = Ok cs
                         /\ OrderedSet.has cs x = true)
  /\ (forall r u attributes,
         deref graph r = Ok (u, attributes) ->
         isUnionType u = true ->
         getChildren graph (UnionInstantiationTransformer r) = Ok [u]).
Proof.
  split.
  - intros n i d b s a o t Hall.
    destruct (unionAll_exact (slots t) OrderedSet.empty)
      as [result [E [D M]]].
    { intros v Hv Hu. apply Hall, In_definedSlots. now split. }
    exists result. split; [ | split].
    + rewrite <- E. exact (getChildren_unionAll t).
    + apply D. constructor.
    + intro x. rewrite M. split.
      * intros [Hx | [v [cs [Hv [Hu [Hc Hx]]]]]]; [discriminate Hx | ].
        exists v, cs. repeat split; try assumption.
        apply In_definedSlots. now split.
      * intros [v [cs [Hv [Hc Hx]]]]. right.
        apply In_definedSlots in Hv. destruct Hv as [Hv Hu].
        exists v, cs. now repeat split.
  - intros r u attributes Hd Hu. simpl. unfold unionType.
    rewrite Hd. simpl. rewrite Hu. reflexivity.
Qed.

(** C8. When the reference of a [UnionInstantiationTransformer] is bound to
    a node that is not a union, reading [unionType] panics, and so does
    [getChildren]; and whatever [unionType] returns is a union. *)
Theorem unionType_panics_on_other_types :
  forall (r : TypeRef),
    (forall t attributes,
        deref graph r = Ok (t, attributes) ->
        isUnionType t = false ->
        unionType graph r = panic "Union instantiator with the wrong type"
        /\ getChildren graph (UnionInstantiationTransformer r)
           = panic "Union instantiator with the wrong type")
    /\ (forall u, unionType graph r = Ok u -> isUnionType u = true).
Proof.
  intro r. split.
  - intros t attributes Hd Hu. simpl. unfold unionType.
    rewrite Hd. simpl. rewrite Hu. simpl. split; reflexivity.
  - intros u. unfold unionType.
    destruct (deref graph r) as [[t attributes] | e]; simpl;
      [ | discriminate].
    destruct (isUnionType t) eqn:Hu; simpl; [ | discriminate].
    intro E. injection E as <-. exact Hu.
Qed.

End GetChildrenFacts.

Lemma getChildren_exact_witness :
  (exists children,
      getChildren GetChildrenExample.graph GetChildrenExample.decoding
      = Ok children
      /\ OrderedSet.distinct children
      /\ forall x,
          OrderedSet.has children x = true <->
          exists v cs,
            In v (definedSlots GetChildrenExample.decoding)
            /\ Value_getChildren GetChildrenExample.graph v = Ok cs
            /\ OrderedSet.has cs x = true)
  /\ getChildren GetChildrenExample.graph (UnionInstantiationTransformer 1)
     = Ok [GetChildrenExample.union1].
Proof.
  split.
  - apply (proj1 (getChildren_exact GetChildrenExample.graph)).
    intros v Hv. simpl in Hv.
    destruct Hv as [<- | [<- | [<- | []]]]; eexists; reflexivity.
  - apply (proj2 (getChildren_exact GetChildrenExample.graph) 1
             GetChildrenExample.union1 []); reflexivity.
Defined.

Lemma unionType_panics_on_other_types_witness :
  (unionType GetChildrenExample.graph 0
   = panic "Union instantiator with the wrong type"
   /\ getChildren GetChildrenExample.graph (UnionInstantiationTransformer 0)
      = panic "Union instantiator with the wrong type")
  /\ isUnionType GetChildrenExample.union2 = true.
Proof.
  split.
  - apply (proj1 (unionType_panics_on_other_types GetChildrenExample.graph 0)
             GetChildrenExample.string0 []); reflexivity.
  - apply (proj2 (unionType_panics_on_other_types GetChildrenExample.graph 2)).
    reflexivity.
Defined.

Section TransformationChildren.

Variable graph : TypeGraph.

(** A fold over slots that are empty or instantiate one union [u] never
    holds anything but that union. *)
Lemma unionAll_one_union (r : TypeRef) (u : Type_) (attributes : TypeAttributes)
    (vs : list Value) :
  deref graph r = Ok (u, attributes) ->
  isUnionType u = true ->
  (forall v, In v vs -> isUndefined v = false ->
             v = VTransformer (UnionInstantiationTransformer r)) ->
  forall children,
    children = [] \/ children = [u] ->
    exists result,
      unionAll graph vs children = Ok result
      /\ (result = [] \/ result = [u]).
Proof.
  intros Hd Hu.
  assert (Hc : Value_getChildren graph
                 (VTransformer (UnionInstantiationTransformer r)) = Ok [u]).
  { simpl. unfold unionType. rewrite Hd. simpl. rewrite Hu. reflexivity. }
  induction vs as [ | v vs IH]; intros Hall children Hch; simpl.
  - exists children. now split.
  - unfold unionChildren at 1.
    destruct (isUndefined v) eqn:Hv; simpl.
    + apply IH; [ | exact Hch]. intros w Hw. apply Hall. now right.
    + rewrite (Hall v (or_introl eq_refl) Hv), Hc. simpl.
      apply IH; [intros w Hw; apply Hall; now right | ].
      right. destruct Hch as [-> | ->]; unfold OrderedSet.union; simpl;
        unfold OrderedSet.add, OrderedSet.has; simpl;
        [reflexivity | now rewrite Nat.eqb_refl].
Qed.

(** C3, as amended.  For every [Transformation], [getChildren] returns the
    children of its transformer with the target type added, so a type is
    among them exactly when it is among the transformer's children or is
    the target.  In particular, when the target is a union and every
    defined slot of the [DecodingTransformer] is a
    [UnionInstantiationTransformer] on that union (however many of the
    slots are populated), [getChildren] returns exactly one type, the
    target union. *)
Theorem Transformation_getChildren_adds_target :
  (forall xf children target attributes,
      getChildren graph (transformer xf) = Ok children ->
      deref graph (_targetTypeRef xf) = Ok (target, attributes) ->
      Transformation_getChildren graph xf
      = Ok (OrderedSet.add children target)
      /\ (OrderedSet.distinct children ->
          OrderedSet.distinct (OrderedSet.add children target))
      /\ forall x,
          OrderedSet.has (OrderedSet.add children target) x = true <->
          OrderedSet.has children x = true \/ typeRef x = typeRef target)
  /\ (forall r u attributes n i d b s a o,
         let t := DecodingTransformer n i d b s a o in
         deref graph r = Ok (u, attributes) ->
         isUnionType u = true ->
         (forall v, In v (definedSlots t) ->
                    v = VTransformer (UnionInstantiationTransformer r)) ->
         Transformation_getChildren graph (new_Transformation r t) = Ok [u]).
Proof.
  split.
  - intros xf children target attributes Hc Hd.
    unfold Transformation_getChildren, targetType.
    rewrite Hc, Hd. simpl. split; [reflexivity | ]. split.
    + apply OrderedSetFacts.distinct_add.
    + intro x. rewrite OrderedSetFacts.has_add, orb_true_iff, Nat.eqb_eq.
      split; (intros [Hx | Hx]; [now left | right; congruence]).
  - intros r u attributes n i d b s a o t Hd Hu Hall.
    destruct (unionAll_one_union r u attributes (slots t) Hd Hu)
      with (children := OrderedSet.empty) as [result [E Hres]].
    { intros v Hv Hund. apply Hall, In_definedSlots. now split. }
    { now left. }
    unfold Transformation_getChildren, targetType. simpl transformer.
    rewrite (getChildren_unionAll graph t), E. simpl. rewrite Hd. simpl.
    destruct Hres as [-> | ->]; unfold OrderedSet.add, OrderedSet.has; simpl;
      [reflexivity | now rewrite Nat.eqb_refl].
Qed.

End TransformationChildren.

Lemma Transformation_getChildren_adds_target_witness :
  Transformation_getChildren TransformationExample.graph
    (new_Transformation 5 TransformationExample.decoding)
  = Ok (OrderedSet.add [TransformationExample.union5]
          TransformationExample.union5)
  /\ Transformation_getChildren TransformationExample.graph
       (new_Transformation 5 TransformationExample.decoding)
     = Ok [TransformationExample.union5].
Proof.
  split.
  - apply (proj1 (Transformation_getChildren_adds_target
                    TransformationExample.graph)
             (new_Transformation 5 TransformationExample.decoding)
             [TransformationExample.union5] TransformationExample.union5 []);
      reflexivity.
  - apply (proj2 (Transformation_getChildren_adds_target
                    TransformationExample.graph)
             5 TransformationExample.union5 []); try reflexivity.
    intros v Hv. simpl in Hv.
    destruct Hv as [<- | [<- | [<- | [<- | [<- | []]]]]]; reflexivity.
Defined.

(** ** reconstitute *)

Lemma bind_Ok {B A C : Type} (m : Builder B A) (k : A -> Builder B C)
    (b b' : B) (a : A) :
  m b = (Ok a, b') -> bind m k b = k a b'.
Proof. intro E. unfold bind. now rewrite E. Qed.

Lemma bind_Throw {B A C : Type} (m : Builder B A) (k : A -> Builder B C)
    (b b' : B) (e : Error) :
  m b = (Throw e, b') -> bind m k b = (Throw e, b').
Proof. intro E. unfold bind. now rewrite E. Qed.

Section ReconstituteFacts.

Context {B : Type} `{BaseGraphRewriteBuilder B}.

Variable f : TypeRef -> TypeRef.
Variable inv : B -> Prop.

Ltac slot IH b Hb :=
  let b' := fresh "b" in
  let E := fresh "E" in
  let Hb' := fresh "Hb" in
  destruct (IH b Hb) as [b' [E Hb']];
  rewrite (bind_Ok _ _ _ _ _ E);
  clear E.

Lemma reconstitute_mapTypeRefs :
  (forall t,
      wellTyped t = true ->
      (forall r, In r (typeRefs t) -> imageUnder f inv r) ->
      forall b, inv b ->
                exists b', reconstitute t b = (Ok (mapTypeRefs f t), b')
                           /\ inv b')
  /\ (forall v,
         Value_wellTyped v = true ->
         (forall r, In r (Value_typeRefs v) -> imageUnder f inv r) ->
         forall b, inv b ->
                   exists b', Value_reconstitute v b
                              = (Ok (Value_mapTypeRefs f v), b')
                              /\ inv b').
Proof.
  apply Transformer_Value_mutind.
  - intros n Hn i Hi d Hd b Hb s Hs a Ha o Ho W R b0 Hb0.
    simpl in W. repeat rewrite andb_true_iff in W.
    destruct W as [[[[[[Wn Wi] Wd] Wb] Ws] Wa] Wo].
    simpl in R.
    assert (Rn : forall r, In r (Value_typeRefs n) -> imageUnder f inv r)
      by (intros r Hr; apply R; repeat (rewrite in_app_iff); tauto).
    assert (Ri : forall r, In r (Value_typeRefs i) -> imageUnder f inv r)
      by (intros r Hr; apply R; repeat (rewrite in_app_iff); tauto).
    assert (Rd : forall r, In r (Value_typeRefs d) -> imageUnder f inv r)
      by (intros r Hr; apply R; repeat (rewrite in_app_iff); tauto).
    assert (Rb : forall r, In r (Value_typeRefs b) -> imageUnder f inv r)
      by (intros r Hr; apply R; repeat (rewrite in_app_iff); tauto).
    assert (Rs : forall r, In r (Value_typeRefs s) -> imageUnder f inv r)
      by (intros r Hr; apply R; repeat (rewrite in_app_iff); tauto).
    assert (Ra : forall r, In r (Value_typeRefs a) -> imageUnder f inv r)
      by (intros r Hr; apply R; repeat (rewrite in_app_iff); tauto).
    assert (Ro : forall r, In r (Value_typeRefs o) -> imageUnder f inv r)
      by (intros r Hr; apply R; repeat (rewrite in_app_iff); tauto).
    specialize (Hn Wn Rn). specialize (Hi Wi Ri). specialize (Hd Wd Rd).
    specialize (Hb Wb Rb). specialize (Hs Ws Rs). specialize (Ha Wa Ra).
    specialize (Ho Wo Ro).
    cbn [reconstitute mapTypeRefs].
    slot Hn b0 Hb0. slot Hi b1 Hb1. slot Hd b2 Hb2. slot Hb b3 Hb3.
    slot Hs b4 Hb4. slot Ha b5 Hb5. slot Ho b6 Hb6.
    exists b7. split; [reflexivity | assumption].
  - intros r _ R b Hb. cbn [reconstitute mapTypeRefs].
    destruct (R r (or_introl eq_refl) b Hb) as [b' [E Hb']].
    rewrite (bind_Ok _ _ _ _ _ E).
    exists b'. split; [reflexivity | assumption].
  - intros _ _ b Hb. exists b. split; [reflexivity | assumption].
  - intros W. discriminate W.
  - intros r W. discriminate W.
  - intros t Ht W R b Hb. cbn [Value_reconstitute Value_mapTypeRefs].
    destruct (Ht W R b Hb) as [b' [E Hb']].
    rewrite (bind_Ok _ _ _ _ _ E).
    exists b'. split; [reflexivity | assumption].
  - intros x W. discriminate W.
Qed.

Lemma mapTypeRefs_slots :
  forall t,
    wellTyped t = true ->
    instanceOfClassOf t (VTransformer (mapTypeRefs f t)) = true
    /\ map isUndefined (slots (mapTypeRefs f t)) = map isUndefined (slots t).
Proof.
  intros [n i d b s a o | r] _; simpl; split; try reflexivity.
  now destruct n, i, d, b, s, a, o.
Qed.

(** C7.  [reconstitute] of a transformer (typed as the declarations type
    it) and of a transformation, on a builder that sends every reference
    they hold to its image, returns the same variant with every reference
    replaced by its image and every nested transformer reconstituted the
    same way, and nothing else changed: a slot of the result is
    [undefined] exactly when it was [undefined] in the original. *)
Theorem reconstitute_images :
  (forall t,
      wellTyped t = true ->
      (forall r, In r (typeRefs t) -> imageUnder f inv r) ->
      forall b, inv b ->
        exists t' b',
          reconstitute t b = (Ok t', b') /\ inv b'
          /\ t' = mapTypeRefs f t
          /\ instanceOfClassOf t (VTransformer t') = true
          /\ map isUndefined (slots t') = map isUndefined (slots t))
  /\ (forall xf,
         wellTyped (transformer xf) = true ->
         (forall r, In r (_targetTypeRef xf :: typeRefs (transformer xf)) ->
                    imageUnder f inv r) ->
         forall b, inv b ->
           exists xf' b',
             Transformation_reconstitute xf b = (Ok xf', b') /\ inv b'
             /\ xf' = Transformation_mapTypeRefs f xf
             /\ map isUndefined (slots (transformer xf'))
                = map isUndefined (slots (transformer xf))).
Proof.
  split.
  - intros t W R b Hb.
    destruct (proj1 reconstitute_mapTypeRefs t W R b Hb) as [b' [E Hb']].
    exists (mapTypeRefs f t), b'.
    destruct (mapTypeRefs_slots t W) as [Hc Hs].
    repeat split; assumption.
  - intros xf W R b Hb. unfold Transformation_reconstitute.
    destruct (R (_targetTypeRef xf) (or_introl eq_refl) b Hb)
      as [b1 [E1 Hb1]].
    rewrite (bind_Ok _ _ _ _ _ E1).
    destruct (proj1 reconstitute_mapTypeRefs (transformer xf) W
                (fun r Hr => R r (or_intror Hr)) b1 Hb1) as [b2 [E2 Hb2]].
    rewrite (bind_Ok _ _ _ _ _ E2).
    exists (Transformation_mapTypeRefs f xf), b2.
    repeat split; try assumption.
    apply (mapTypeRefs_slots (transformer xf) W).
Qed.

End ReconstituteFacts.

Lemma ReconstituteExample_images (r : TypeRef) :
  In r [1; 2; 1; 2] ->
  imageUnder ReconstituteExample.image ReconstituteExample.inv r.
Proof.
  intros Hr b Hb. red in Hb. subst b. exists ReconstituteExample.builder.
  simpl in Hr.
  destruct Hr as [<- | [<- | [<- | [<- | []]]]]; split; reflexivity.
Defined.

Lemma reconstitute_images_witness :
  (exists t' b',
      reconstitute GetChildrenExample.decoding ReconstituteExample.builder
      = (Ok t', b')
      /\ ReconstituteExample.inv b'
      /\ t' = mapTypeRefs ReconstituteExample.image GetChildrenExample.decoding
      /\ instanceOfClassOf GetChildrenExample.decoding (VTransformer t') = true
      /\ map isUndefined (slots t')
         = map isUndefined (slots GetChildrenExample.decoding))
  /\ (exists xf' b',
         Transformation_reconstitute
           (new_Transformation 1 GetChildrenExample.decoding)
           ReconstituteExample.builder
         = (Ok xf', b')
         /\ ReconstituteExample.inv b'
         /\ xf' = Transformation_mapTypeRefs ReconstituteExample.image
                    (new_Transformation 1 GetChildrenExample.decoding)
         /\ map isUndefined (slots (transformer xf'))
            = map isUndefined (slots GetChildrenExample.decoding)).
Proof.
  split.
  - apply (proj1 (reconstitute_images ReconstituteExample.image
                    ReconstituteExample.inv)).
    + reflexivity.
    + intros r Hr. apply ReconstituteExample_images. cbv in Hr |- *. tauto.
    + reflexivity.
  - apply (proj2 (reconstitute_images ReconstituteExample.image
                    ReconstituteExample.inv)
             (new_Transformation 1 GetChildrenExample.decoding)).
    + reflexivity.
    + intros r Hr. apply ReconstituteExample_images. cbv in Hr |- *. tauto.
    + reflexivity.
Defined.

(** ** The replacer *)

(** Eight arguments on seven parameters: each slot holds the argument at its
    own position and the eighth argument is dropped. *)
Lemma new_DecodingTransformer_positional (a0 a1 a2 a3 a4 a5 a6 a7 : Value) :
  slots (new_DecodingTransformer [a0; a1; a2; a3; a4; a5; a6; a7])
  = [a0; a1; a2; a3; a4; a5; a6].
Proof. reflexivity. Qed.

Section ReplaceFacts.

Context {B : Type} `{GraphRewriteBuilder B}.

(** C4.  When the union of the group has no members, [replace] throws the
    assertion failure "We can't have empty unions" and leaves the builder
    as it found it: no union, transformer or placeholder has been built,
    whatever the builder is; in particular it returns no placeholder. *)
Theorem replace_empty_union_aborts
    (graph : TypeGraph) (setOfOneUnion : list Type_) (forwardingRef : TypeRef)
    (union : Type_) (b : B) :
  hd_error setOfOneUnion = Some union ->
  members graph union = Ok [] ->
  replace graph setOfOneUnion forwardingRef b
  = (Throw (AssertionFailure "We can't have empty unions"), b)
  /\ forall r b', replace graph setOfOneUnion forwardingRef b <> (Ok r, b').
Proof.
  intros Hu Hm.
  assert (E : replace graph setOfOneUnion forwardingRef b
              = (Throw (AssertionFailure "We can't have empty unions"), b)).
  { unfold replace, bind at 1, lift at 1. rewrite Hu. simpl defined. cbv iota.
    unfold bind at 1, lift at 1. rewrite Hm. cbv iota.
    unfold bind at 1, lift at 1. reflexivity. }
  split; [exact E | ].
  intros r b'. rewrite E. discriminate.
Qed.

End ReplaceFacts.

Lemma replace_empty_union_aborts_witness :
  Scenario.run Scenario.graphE Scenario.unionE
  = (Throw (AssertionFailure "We can't have empty unions"),
     Scenario.start Scenario.graphE)
  /\ forall r b', Scenario.run Scenario.graphE Scenario.unionE <> (Ok r, b').
Proof.
  apply (replace_empty_union_aborts Scenario.graphE [Scenario.unionE] 0
           Scenario.unionE (Scenario.start Scenario.graphE));
    reflexivity.
Defined.

(** C1, on the code.  Scenario A, [integer | string]: the constructor of
    [DecodingTransformer] has seven parameters and [replace] calls it with
    eight arguments, the reference of a fresh "any" node first.  The null
    slot holds that reference, the double slot the transformer made for
    integer and the array slot the transformer made for string; the integer
    and the string slot are [undefined]. *)
Theorem replace_slots_scenarioA :
  exists b xf,
    Scenario.run Scenario.graphA Scenario.unionA = (Ok 0, b)
    /\ Scenario.transformationAt (types b) 0 = Some xf
    /\ nullTransformer (transformer xf) = VTypeRef 4
    /\ integerTransformer (transformer xf) = VUndefined
    /\ doubleTransformer (transformer xf)
       = VTransformer (UnionInstantiationTransformer 1)
    /\ boolTransformer (transformer xf) = VUndefined
    /\ stringTransformer (transformer xf) = VUndefined
    /\ arrayTransformer (transformer xf)
       = VTransformer (UnionInstantiationTransformer 2)
    /\ objectTransformer (transformer xf) = VUndefined
    /\ wellTyped (transformer xf) = false.
Proof.
  eexists. eexists.
  split; [vm_compute; reflexivity | ].
  split; [vm_compute; reflexivity | ].
  repeat split.
Qed.

(** C2, on the code.  Scenario B, [null | integer | double | bool | string]:
    the constructor of [UnionInstantiationTransformer] has one parameter and
    [transformerForKind] calls it with two arguments, the reference of the
    reconstituted member first.  The target of the transformation is the
    new union, reference 6; the transformer made for integer holds
    reference 2, which is bound to the integer node of the new generation,
    so that [unionType] and [getChildren] panic on it; and it sits in the
    double slot, while the integer slot holds the transformer made for
    null. *)
Theorem replace_instantiators_scenarioB :
  exists b xf ms,
    Scenario.run Scenario.graphB Scenario.unionB = (Ok 0, b)
    /\ Scenario.transformationAt (types b) 0 = Some xf
    /\ _targetTypeRef xf = 6
    /\ option_map kind (nth 6 (types b) None) = Some Kunion
    /\ members Scenario.graphB Scenario.unionB = Ok ms
    /\ fst (transformerForKind ms 6 Kinteger b)
       = Ok (VTransformer (UnionInstantiationTransformer 2))
    /\ option_map kind (nth 2 (types b) None) = Some Kinteger
    /\ unionType (types b) 2 = panic "Union instantiator with the wrong type"
    /\ getChildren (types b) (UnionInstantiationTransformer 2)
       = panic "Union instantiator with the wrong type"
    /\ integerTransformer (transformer xf)
       = VTransformer (UnionInstantiationTransformer 1)
    /\ doubleTransformer (transformer xf)
       = VTransformer (UnionInstantiationTransformer 2).
Proof.
  eexists. eexists. eexists.
  split; [vm_compute; reflexivity | ].
  split; [vm_compute; reflexivity | ].
  split; [reflexivity | ].
  split; [reflexivity | ].
  split; [vm_compute; reflexivity | ].
  repeat split.
Qed.

(** C3, the count of six.  In scenario B [getChildren] on the transformation
    [replace] attaches throws, so it does not return six types; and on the
    transformation whose five scalar slots instantiate the target union it
    returns one type, the target, not six. *)
Lemma Transformation_getChildren_scenarioB_not_six :
  (exists b xf,
      Scenario.run Scenario.graphB Scenario.unionB = (Ok 0, b)
      /\ Scenario.transformationAt (types b) 0 = Some xf
      /\ Transformation_getChildren (types b) xf
         = Throw (TypeError "getChildren is not a function")
      /\ ~ (exists children,
               Transformation_getChildren (types b) xf = Ok children
               /\ List.length children = 6))
  /\ ~ (exists children,
           Transformation_getChildren TransformationExample.graph
             (new_Transformation 5 TransformationExample.decoding)
           = Ok children
           /\ List.length children = 6).
Proof.
  split.
  - eexists. eexists.
    split; [vm_compute; reflexivity | ].
    split; [vm_compute; reflexivity | ].
    split; [reflexivity | ].
    intros [children [E _]]. discriminate E.
  - intros [children [E L]]. vm_compute in E. injection E as <-.
    discriminate L.
Qed.

(** * Further properties of the two modules *)

(** ** transformerForKind and the group of the replacer *)

Section ReplacerFacts.

Context {B : Type} `{GraphRewriteBuilder B}.

(** X1.  [transformerForKind]: for a kind the union has no member of, the
    result is [undefined] and the builder is not touched; for a kind it has a
    member of, the member is reconstituted and the result is an instantiator
    on the reference the builder returns for that member, or the builder's
    error; in every case the result is the same whatever union reference is
    passed as [reconstitutedUnion]. *)
Theorem transformerForKind_result
    (ms : list Type_) (reconstitutedUnion : TypeRef) (k : TypeKind) (b : B) :
  (findMember ms k = None ->
   transformerForKind ms reconstitutedUnion k b = (Ok VUndefined, b))
  /\ (forall member,
         findMember ms k = Some member ->
         kind member = k
         /\ In member ms
         /\ (forall r b',
                reconstituteType member b = (Ok r, b') ->
                transformerForKind ms reconstitutedUnion k b
                = (Ok (VTransformer (UnionInstantiationTransformer r)), b'))
         /\ (forall e b',
                reconstituteType member b = (Throw e, b') ->
                transformerForKind ms reconstitutedUnion k b = (Throw e, b')))
  /\ (forall otherUnion,
         transformerForKind ms otherUnion k b
         = transformerForKind ms reconstitutedUnion k b).
Proof.
  split; [ | split].
  - intro E. unfold transformerForKind. now rewrite E.
  - intros member E. unfold transformerForKind. rewrite E.
    unfold findMember in E. apply find_some in E. destruct E as [Hin Hk].
    split.
    { destruct (kind member), k; simpl in Hk; congruence. }
    split; [exact Hin | ].
    split.
    + intros r b' Hr. now rewrite (bind_Ok _ _ _ _ _ Hr).
    + intros e b' Hr. now rewrite (bind_Throw _ _ _ _ _ Hr).
  - intro otherUnion. unfold transformerForKind.
    destruct (findMember ms k); reflexivity.
Qed.

(** X2.  The guards of [replace]: it returns a reference only for a group
    whose first element has members, all bound to nodes; for a group without
    elements, or one whose first element has no member or a member reference
    bound to no node, it throws and leaves the builder as it was. *)
Theorem replace_guards
    (graph : TypeGraph) (setOfOneUnion : list Type_) (forwardingRef : TypeRef)
    (b : B) :
  (forall r b',
      replace graph setOfOneUnion forwardingRef b = (Ok r, b') ->
      exists union m ms,
        hd_error setOfOneUnion = Some union
        /\ members graph union = Ok (m :: ms))
  /\ (hd_error setOfOneUnion = None
      \/ (exists union,
             hd_error setOfOneUnion = Some union
             /\ forall m ms, members graph union <> Ok (m :: ms)) ->
      exists e, replace graph setOfOneUnion forwardingRef b = (Throw e, b)).
Proof.
  destruct (hd_error setOfOneUnion) as [union | ] eqn:Hu.
  - destruct (members graph union) as [[ | m ms] | e] eqn:Hm.
    + assert (E : exists e, replace graph setOfOneUnion forwardingRef b
                            = (Throw e, b)).
      { eexists. unfold replace, bind at 1, lift at 1. rewrite Hu.
        simpl defined. cbv iota. unfold bind at 1, lift at 1. rewrite Hm.
        cbv iota. unfold bind at 1, lift at 1. reflexivity. }
      split; [ | intros _; exact E].
      intros r b' E'. destruct E as [e E]. rewrite E in E'. discriminate E'.
    + split.
      * intros r b' _. exists union, m, ms. now split.
      * intros [E | [u [E N]]]; [discriminate E | ].
        injection E as <-. now elim (N m ms).
    + assert (E : replace graph setOfOneUnion forwardingRef b = (Throw e, b)).
      { unfold replace, bind at 1, lift at 1. rewrite Hu.
        simpl defined. cbv iota. unfold bind at 1, lift at 1. rewrite Hm.
        reflexivity. }
      split; [ | intros _; now exists e].
      intros r b' E'. rewrite E in E'. discriminate E'.
  - assert (E : exists e, replace graph setOfOneUnion forwardingRef b
                          = (Throw e, b)).
    { eexists. unfold replace, bind at 1, lift at 1. rewrite Hu.
      reflexivity. }
    split; [ | intros _; exact E].
    intros r b' E'. destruct E as [e E]. rewrite E in E'. discriminate E'.
Qed.

End ReplacerFacts.

Lemma replace_guards_witness :
  exists e,
    replace Scenario.graphA [mkType 2 Kunion [0; 7] []] 0
      (Scenario.start Scenario.graphA)
    = (Throw e, Scenario.start Scenario.graphA).
Proof.
  apply (proj2 (replace_guards Scenario.graphA [mkType 2 Kunion [0; 7] []] 0
                  (Scenario.start Scenario.graphA))).
  right. eexists. split; [reflexivity | ].
  intros m ms E. discriminate E.
Defined.

Lemma transformerForKind_result_witness :
  transformerForKind [mkType 1 Kstring [] []] 9 Kinteger
    (Scenario.start Scenario.graphA)
  = (Ok VUndefined, Scenario.start Scenario.graphA)
  /\ fst (transformerForKind [mkType 1 Kstring [] []] 9 Kstring
            (Scenario.start Scenario.graphA))
     = Ok (VTransformer (UnionInstantiationTransformer 1)).
Proof.
  split.
  - apply (proj1 (transformerForKind_result [mkType 1 Kstring [] []] 9
                    Kinteger (Scenario.start Scenario.graphA))).
    reflexivity.
  - destruct (proj1 (proj2 (transformerForKind_result
                              [mkType 1 Kstring [] []] 9 Kstring
                              (Scenario.start Scenario.graphA)))
                (mkType 1 Kstring [] []) eq_refl) as [_ [_ [Hok _]]].
    erewrite Hok by reflexivity. reflexivity.
Defined.

(** ** equals, once more *)

(** X3.  [equals] is an equivalence on transformers: reflexive, symmetric
    and transitive, so that transformers can be keys of hash containers. *)
Theorem equals_equivalence :
  (forall t, equals t (VTransformer t) = true)
  /\ (forall t t', equals t (VTransformer t') = equals t' (VTransformer t))
  /\ (forall t t' t'',
         equals t (VTransformer t') = true ->
         equals t' (VTransformer t'') = true ->
         equals t (VTransformer t'') = true).
Proof.
  pose proof (proj1 equals_is_true) as E.
  split; [ | split].
  - intro t. now apply E.
  - intros t t'.
    destruct (equals t (VTransformer t')) eqn:E1;
      destruct (equals t' (VTransformer t)) eqn:E2; try reflexivity.
    + apply E in E1. injection E1 as ->.
      rewrite (proj2 (E t (VTransformer t)) eq_refl) in E2. discriminate E2.
    + apply E in E2. injection E2 as ->.
      rewrite (proj2 (E t' (VTransformer t')) eq_refl) in E1. discriminate E1.
  - intros t t' t'' E1 E2. apply E in E1, E2.
    injection E1 as ->. injection E2 as ->. now apply E.
Qed.

Lemma equals_equivalence_witness :
  equals EqualsExample.first (VTransformer EqualsExample.first) = true.
Proof.
  apply (proj2 (proj2 equals_equivalence) EqualsExample.first
           EqualsExample.second EqualsExample.first); reflexivity.
Defined.

(** X4.  [Transformation.equals] is structural and [Transformation.hashCode]
    agrees with it: a transformation equals exactly the transformations with
    the same target reference and an equal transformer, and no other value;
    and equal transformations have the same hash code. *)
Theorem Transformation_equals_structural (xf : Transformation) (other : Any) :
  (Transformation_equals xf other = true <-> other = ATransformation xf)
  /\ (forall xf',
         Transformation_equals xf (ATransformation xf') = true ->
         forall hashCodeInit addHashCode TypeRef_hashCode hashJSObj,
           Transformation_hashCode hashCodeInit addHashCode TypeRef_hashCode
             hashJSObj xf
           = Transformation_hashCode hashCodeInit addHashCode TypeRef_hashCode
               hashJSObj xf').
Proof.
  assert (E : forall o, Transformation_equals xf o = true
                        <-> o = ATransformation xf).
  { intros [v | [r' t']]; destruct xf as [r t]; simpl.
    - split; intro E; discriminate E.
    - rewrite andb_true_iff, Nat.eqb_eq, (proj1 equals_is_true).
      split.
      + intros [-> E]. injection E as ->. reflexivity.
      + intro E. injection E as -> ->. now split. }
  split; [apply E | ].
  intros xf' E' h0 add hr ho. apply E in E'. injection E' as ->. reflexivity.
Qed.

Lemma Transformation_equals_structural_witness :
  Transformation_hashCode 17%Z EqualsExample.addHashCode Z.of_nat Z.of_nat
    (new_Transformation 3 EqualsExample.first)
  = Transformation_hashCode 17%Z EqualsExample.addHashCode Z.of_nat Z.of_nat
      (new_Transformation 3 EqualsExample.second).
Proof.
  apply (proj2 (Transformation_equals_structural
                  (new_Transformation 3 EqualsExample.first)
                  (ATransformation
                     (new_Transformation 3 EqualsExample.second)))).
  reflexivity.
Defined.

(** ** getChildren, through nested transformers *)

Section GetChildrenThrough.

Variable graph : TypeGraph.

Lemma unionAll_Ok_slots (vs : list Value) :
  forall children result,
    unionAll graph vs children = Ok result ->
    forall v, In v vs -> isUndefined v = false ->
              exists cs, Value_getChildren graph v = Ok cs.
Proof.
  induction vs as [ | w vs IH]; intros children result E v Hv Hu.
  - destruct Hv.
  - simpl in E. unfold unionChildren in E at 1.
    destruct (isUndefined w) eqn:Hw; simpl in E.
    + destruct Hv as [-> | Hv]; [congruence | ].
      exact (IH _ _ E v Hv Hu).
    + destruct (Value_getChildren graph w) as [cs | e] eqn:Hc; simpl in E;
        [ | discriminate E].
      destruct Hv as [<- | Hv]; [now exists cs | ].
      exact (IH _ _ E v Hv Hu).
Qed.

Lemma typeRefs_slots (t : Transformer) :
  typeRefs t
  = match t with
    | DecodingTransformer _ _ _ _ _ _ _ => flat_map Value_typeRefs (slots t)
    | UnionInstantiationTransformer r => [r]
    end.
Proof.
  destruct t as [n i d b s a o | r]; [ | reflexivity].
  simpl. now rewrite app_nil_r.
Qed.

Lemma wellTyped_slots (t : Transformer) :
  wellTyped t = forallb Value_wellTyped (slots t).
Proof.
  destruct t as [n i d b s a o | r]; [ | reflexivity].
  simpl.
  destruct (Value_wellTyped n), (Value_wellTyped i), (Value_wellTyped d),
    (Value_wellTyped b), (Value_wellTyped s), (Value_wellTyped a),
    (Value_wellTyped o); reflexivity.
Qed.

Lemma undefined_slot (v : Value) : isUndefined v = true -> v = VUndefined.
Proof. destruct v; simpl; congruence. Qed.

Lemma getChildren_Ok :
  (forall t cs,
      getChildren graph t = Ok cs ->
      wellTyped t = true /\ childrenOf graph (typeRefs t) cs)
  /\ (forall v cs,
         Value_getChildren graph v = Ok cs ->
         Value_wellTyped v = true /\ childrenOf graph (Value_typeRefs v) cs).
Proof.
  apply Transformer_Value_mutind.
  - intros n Hn i Hi d Hd b Hb s Hs a Ha o Ho cs E.
    set (t := DecodingTransformer n i d b s a o) in *.
    assert (HQ : forall v, In v (slots t) ->
                 forall cs', Value_getChildren graph v = Ok cs' ->
                 Value_wellTyped v = true
                 /\ childrenOf graph (Value_typeRefs v) cs').
    { intros v Hv. simpl in Hv.
      destruct Hv as [<- | [<- | [<- | [<- | [<- | [<- | [<- | []]]]]]]];
        assumption. }
    clear Hn Hi Hd Hb Hs Ha Ho.
    rewrite (getChildren_unionAll graph t) in E.
    pose proof (unionAll_Ok_slots _ _ _ E) as Hans.
    destruct (unionAll_exact graph (slots t) OrderedSet.empty Hans)
      as [result [E' [D M]]].
    rewrite E in E'. injection E' as <-.
    split; [ | split; [ | split]].
    + rewrite wellTyped_slots. apply forallb_forall. intros v Hv.
      destruct (isUndefined v) eqn:Hu.
      * now rewrite (undefined_slot v Hu).
      * destruct (Hans v Hv Hu) as [cs' Hc]. apply (HQ v Hv cs' Hc).
    + intros r Hr. rewrite typeRefs_slots in Hr. apply in_flat_map in Hr.
      destruct Hr as [v [Hv Hr]].
      destruct (isUndefined v) eqn:Hu.
      * rewrite (undefined_slot v Hu) in Hr. destruct Hr.
      * destruct (Hans v Hv Hu) as [cs' Hc].
        now apply (HQ v Hv cs' Hc).
    + apply D. constructor.
    + intro x. rewrite M. split.
      * intros [Hx | [v [cs' [Hv [Hu [Hc Hx]]]]]]; [discriminate Hx | ].
        destruct (HQ v Hv cs' Hc) as [_ [_ [_ Mv]]].
        apply Mv in Hx. destruct Hx as [r [u [at' [Hr [Hd Hx]]]]].
        exists r, u, at'. repeat split; try assumption.
        rewrite typeRefs_slots. apply in_flat_map. now exists v.
      * intros [r [u [at' [Hr [Hd Hx]]]]]. right.
        rewrite typeRefs_slots in Hr. apply in_flat_map in Hr.
        destruct Hr as [v [Hv Hr]].
        destruct (isUndefined v) eqn:Hu.
        { rewrite (undefined_slot v Hu) in Hr. destruct Hr. }
        destruct (Hans v Hv Hu) as [cs' Hc].
        exists v, cs'. repeat split; try assumption.
        destruct (HQ v Hv cs' Hc) as [_ [_ [_ Mv]]].
        apply Mv. now exists r, u, at'.
  - intros r cs E. simpl in E. unfold unionType in E.
    destruct (deref graph r) as [[u at'] | e] eqn:Hd; simpl in E;
      [ | discriminate E].
    destruct (isUnionType u) eqn:Hu; simpl in E; [ | discriminate E].
    injection E as <-.
    split; [reflexivity | ]. split; [ | split].
    + intros r' [<- | []]. now exists u, at'.
    + unfold OrderedSet.distinct. simpl. repeat constructor. intros [].
    + intro x. unfold OrderedSet.of_list, OrderedSet.union. simpl.
      unfold OrderedSet.has. simpl. rewrite orb_false_r, Nat.eqb_eq. split.
      * intro Hx. exists r, u, at'. repeat split; try assumption. now left.
      * intros [r' [u' [at'' [[<- | []] [Hd' Hx]]]]]. congruence.
  - intros cs E. discriminate E.
  - intros cs E. discriminate E.
  - intros r cs E. discriminate E.
  - intros t Ht cs E. simpl in *. now apply Ht.
  - intros x cs E. discriminate E.
Qed.

Lemma getChildren_answers :
  (forall t,
      wellTyped t = true ->
      (forall r, In r (typeRefs t) -> boundToUnion graph r) ->
      exists cs, getChildren graph t = Ok cs)
  /\ (forall v,
         isUndefined v = false ->
         Value_wellTyped v = true ->
         (forall r, In r (Value_typeRefs v) -> boundToUnion graph r) ->
         exists cs, Value_getChildren graph v = Ok cs).
Proof.
  apply Transformer_Value_mutind.
  - intros n Hn i Hi d Hd b Hb s Hs a Ha o Ho W R.
    set (t := DecodingTransformer n i d b s a o) in *.
    assert (HQ : forall v, In v (slots t) ->
                 isUndefined v = false ->
                 Value_wellTyped v = true ->
                 (forall r, In r (Value_typeRefs v) -> boundToUnion graph r) ->
                 exists cs, Value_getChildren graph v = Ok cs).
    { intros v Hv. simpl in Hv.
      destruct Hv as [<- | [<- | [<- | [<- | [<- | [<- | [<- | []]]]]]]];
        assumption. }
    clear Hn Hi Hd Hb Hs Ha Ho.
    rewrite wellTyped_slots in W.
    destruct (unionAll_exact graph (slots t) OrderedSet.empty)
      as [result [E _]].
    { intros v Hv Hu. apply (HQ v Hv Hu).
      - exact (proj1 (forallb_forall _ _) W v Hv).
      - intros r Hr. apply R. rewrite typeRefs_slots. apply in_flat_map.
        now exists v. }
    exists result. rewrite <- E. exact (getChildren_unionAll graph t).
  - intros r _ R. destruct (R r (or_introl eq_refl)) as [u [at' [Hd Hu]]].
    exists [u]. simpl. unfold unionType. rewrite Hd. simpl. now rewrite Hu.
  - intro E. discriminate E.
  - intros _ W. discriminate W.
  - intros r _ W. discriminate W.
  - intros t Ht _ W R. simpl in *. now apply Ht.
  - intros x _ W. discriminate W.
Qed.

(** X5.  [getChildren] returns on a transformer exactly when every slot holds
    [undefined] or a transformer, at every depth, and every reference in the
    tree is bound to a union.  What it returns has no repetition and holds
    exactly the nodes the references of the tree are bound to. *)
Theorem getChildren_all_references (t : Transformer) :
  ((exists cs, getChildren graph t = Ok cs) <->
   wellTyped t = true /\ forall r, In r (typeRefs t) -> boundToUnion graph r)
  /\ (forall cs,
         getChildren graph t = Ok cs ->
         OrderedSet.distinct cs
         /\ forall x,
             OrderedSet.has cs x = true <->
             exists r u attributes,
               In r (typeRefs t) /\ deref graph r = Ok (u, attributes)
               /\ typeRef u = typeRef x).
Proof.
  split.
  - split.
    + intros [cs E]. destruct (proj1 getChildren_Ok t cs E) as [W [R _]].
      now split.
    + intros [W R]. exact (proj1 getChildren_answers t W R).
  - intros cs E. destruct (proj1 getChildren_Ok t cs E) as [_ [_ [D M]]].
    now split.
Qed.

(** X6.  [Transformation.getChildren] returns exactly when [getChildren] of
    the transformer does and the target reference is bound to a node; what
    it returns is never empty, has no repetition and holds the target. *)
Theorem Transformation_getChildren_returns (xf : Transformation) :
  ((exists cs, Transformation_getChildren graph xf = Ok cs) <->
   (exists cs, getChildren graph (transformer xf) = Ok cs)
   /\ bound graph (_targetTypeRef xf))
  /\ (forall cs,
         Transformation_getChildren graph xf = Ok cs ->
         cs <> []
         /\ OrderedSet.distinct cs
         /\ exists target attributes,
             deref graph (_targetTypeRef xf) = Ok (target, attributes)
             /\ OrderedSet.has cs target = true).
Proof.
  unfold Transformation_getChildren, targetType, bound.
  destruct (getChildren graph (transformer xf)) as [cs0 | e] eqn:E0; simpl.
  - destruct (deref graph (_targetTypeRef xf)) as [[target at'] | e] eqn:Ed;
      simpl.
    + split.
      * split; [intros _ | intros _; eexists; reflexivity].
        split; [now exists cs0 | now exists target, at'].
      * intros cs E. injection E as <-.
        assert (Hh : OrderedSet.has (OrderedSet.add cs0 target) target = true).
        { rewrite OrderedSetFacts.has_add, Nat.eqb_refl. apply orb_true_r. }
        split; [ | split].
        -- intro N. rewrite N in Hh. discriminate Hh.
        -- apply OrderedSetFacts.distinct_add.
           exact (proj1 (proj2 (proj2 (proj1 getChildren_Ok _ _ E0)))).
        -- now exists target, at'.
    + split.
      * split; [intros [cs E]; discriminate E | ].
        intros [_ [t' [a' E]]]. discriminate E.
      * intros cs E. discriminate E.
  - split.
    + split; [intros [cs E]; discriminate E | ].
      intros [[cs E] _]. discriminate E.
    + intros cs E. discriminate E.
Qed.

End GetChildrenThrough.

Lemma getChildren_all_references_witness :
  exists cs,
    getChildren GetChildrenExample.graph GetChildrenExample.decoding = Ok cs.
Proof.
  apply (proj2 (proj1 (getChildren_all_references GetChildrenExample.graph
                         GetChildrenExample.decoding))).
  split; [reflexivity | ].
  intros r Hr. cbv in Hr.
  destruct Hr as [<- | [<- | [<- | []]]]; eexists; eexists; split; reflexivity.
Defined.

Lemma Transformation_getChildren_returns_witness :
  exists cs,
    Transformation_getChildren GetChildrenExample.graph
      (new_Transformation 0 GetChildrenExample.decoding) = Ok cs.
Proof.
  apply (proj2 (proj1 (Transformation_getChildren_returns
                         GetChildrenExample.graph
                         (new_Transformation 0 GetChildrenExample.decoding)))).
  split; [eexists; reflexivity | ].
  eexists. eexists. reflexivity.
Defined.

(** ** reconstitute, from one generation to the next *)

Lemma mapTypeRefs_typeRefs (f : TypeRef -> TypeRef) :
  (forall t, typeRefs (mapTypeRefs f t) = map f (typeRefs t))
  /\ (forall v, Value_typeRefs (Value_mapTypeRefs f v)
                = map f (Value_typeRefs v)).
Proof.
  apply Transformer_Value_mutind; simpl; try reflexivity.
  - intros n Hn i Hi d Hd b Hb s Hs a Ha o Ho.
    repeat rewrite map_app. congruence.
  - intros t Ht. exact Ht.
Qed.

Lemma mapTypeRefs_wellTyped (f : TypeRef -> TypeRef) :
  (forall t, wellTyped (mapTypeRefs f t) = wellTyped t)
  /\ (forall v, Value_wellTyped (Value_mapTypeRefs f v) = Value_wellTyped v).
Proof.
  apply Transformer_Value_mutind; simpl; try reflexivity.
  - intros n Hn i Hi d Hd b Hb s Hs a Ha o Ho. congruence.
  - intros t Ht. exact Ht.
Qed.

Lemma mapTypeRefs_compose (f g : TypeRef -> TypeRef) :
  (forall t, mapTypeRefs g (mapTypeRefs f t)
             = mapTypeRefs (fun r => g (f r)) t)
  /\ (forall v, Value_mapTypeRefs g (Value_mapTypeRefs f v)
                = Value_mapTypeRefs (fun r => g (f r)) v).
Proof.
  apply Transformer_Value_mutind; simpl; try reflexivity.
  - intros n Hn i Hi d Hd b Hb s Hs a Ha o Ho. congruence.
  - intros t Ht. congruence.
Qed.

Lemma mapTypeRefs_injective (f : TypeRef -> TypeRef) :
  (forall r r', f r = f r' -> r = r') ->
  (forall t t', mapTypeRefs f t = mapTypeRefs f t' -> t = t')
  /\ (forall v v', Value_mapTypeRefs f v = Value_mapTypeRefs f v' -> v = v').
Proof.
  intro Hf. apply Transformer_Value_mutind.
  - intros n Hn i Hi d Hd b Hb s Hs a Ha o Ho [n' i' d' b' s' a' o' | r'] E;
      simpl in E; [ | discriminate E].
    injection E as En Ei Ed Eb Es Ea Eo.
    rewrite (Hn _ En), (Hi _ Ei), (Hd _ Ed), (Hb _ Eb), (Hs _ Es), (Ha _ Ea),
      (Ho _ Eo).
    reflexivity.
  - intros r [n' i' d' b' s' a' o' | r'] E; simpl in E; [discriminate E | ].
    injection E as E. now rewrite (Hf _ _ E).
  - intros [ | | r' | t' | x'] E; simpl in E; congruence.
  - intros [ | | r' | t' | x'] E; simpl in E; congruence.
  - intros r [ | | r' | t' | x'] E; simpl in E; congruence.
  - intros t Ht [ | | r' | t' | x'] E; simpl in E; try congruence.
    injection E as E. now rewrite (Ht _ E).
  - intros x [ | | r' | t' | x'] E; simpl in E; congruence.
Qed.

Section ReconstituteThrough.

Context {B : Type} `{BaseGraphRewriteBuilder B}.

Variable f : TypeRef -> TypeRef.
Variable inv : B -> Prop.

(** X7.  The transformer [reconstitute] returns holds the images of the
    references of the original, in the same order, and is typed as the
    original is; so [getChildren] returns on it in every generation in which
    those images are bound to unions. *)
Theorem reconstitute_references (t : Transformer) (b : B) :
  wellTyped t = true ->
  (forall r, In r (typeRefs t) -> imageUnder f inv r) ->
  inv b ->
  exists t' b',
    reconstitute t b = (Ok t', b') /\ inv b'
    /\ typeRefs t' = map f (typeRefs t)
    /\ wellTyped t' = true
    /\ forall newGraph,
        (forall r, In r (typeRefs t) -> boundToUnion newGraph (f r)) ->
        exists cs, getChildren newGraph t' = Ok cs
                   /\ childrenOf newGraph (map f (typeRefs t)) cs.
Proof.
  intros W R Hb.
  destruct (proj1 (reconstitute_mapTypeRefs f inv) t W R b Hb) as [b' [E Hb']].
  exists (mapTypeRefs f t), b'.
  pose proof (proj1 (mapTypeRefs_typeRefs f) t) as Hrefs.
  pose proof (proj1 (mapTypeRefs_wellTyped f) t) as Hwt.
  rewrite W in Hwt.
  repeat split; try assumption.
  intros newGraph Hbound.
  destruct (proj1 (getChildren_answers newGraph) (mapTypeRefs f t) Hwt)
    as [cs Hcs].
  { intros r Hr. rewrite Hrefs in Hr. apply in_map_iff in Hr.
    destruct Hr as [r0 [<- Hr0]]. now apply Hbound. }
  exists cs. split; [exact Hcs | ].
  rewrite <- Hrefs. exact (proj2 (proj1 (getChildren_Ok newGraph) _ _ Hcs)).
Qed.

(** X8.  Reconstitution keeps [equals] as it is when the builder sends
    different references to different images: the reconstituted transformers
    are equal exactly when the originals are. *)
Theorem reconstitute_equals (t1 t2 : Transformer) (b1 b2 : B) :
  (forall r r', f r = f r' -> r = r') ->
  wellTyped t1 = true -> wellTyped t2 = true ->
  (forall r, In r (typeRefs t1 ++ typeRefs t2)%list -> imageUnder f inv r) ->
  inv b1 -> inv b2 ->
  exists t1' b1' t2' b2',
    reconstitute t1 b1 = (Ok t1', b1')
    /\ reconstitute t2 b2 = (Ok t2', b2')
    /\ equals t1' (VTransformer t2') = equals t1 (VTransformer t2).
Proof.
  intros Hf W1 W2 R Hb1 Hb2.
  destruct (proj1 (reconstitute_mapTypeRefs f inv) t1 W1) with (b := b1)
    as [b1' [E1 _]]; [intros r Hr; apply R, in_or_app; now left | exact Hb1 | ].
  destruct (proj1 (reconstitute_mapTypeRefs f inv) t2 W2) with (b := b2)
    as [b2' [E2 _]]; [intros r Hr; apply R, in_or_app; now right | exact Hb2 | ].
  exists (mapTypeRefs f t1), b1', (mapTypeRefs f t2), b2'.
  split; [exact E1 | ]. split; [exact E2 | ].
  pose proof (proj1 equals_is_true) as E.
  destruct (equals t1 (VTransformer t2)) eqn:E12.
  - apply E in E12. injection E12 as ->. now apply E.
  - destruct (equals (mapTypeRefs f t1) (VTransformer (mapTypeRefs f t2)))
      eqn:E12'; [ | reflexivity].
    apply E in E12'. injection E12' as E12'.
    apply (proj1 (mapTypeRefs_injective f Hf)) in E12'. subst t2.
    rewrite (proj2 (E t1 (VTransformer t1)) eq_refl) in E12. discriminate E12.
Qed.

Ltac slotOk v W R b Hb :=
  let b' := fresh "b" in
  let E := fresh "E" in
  let Hb' := fresh "Hb" in
  destruct (proj2 (reconstitute_mapTypeRefs f inv) v W R b Hb)
    as [b' [E Hb']];
  rewrite (bind_Ok _ _ _ _ _ E);
  clear E.

(** A transformer that is not typed as declared cannot be reconstituted. *)
Lemma reconstitute_illTyped :
  (forall t,
      wellTyped t = false ->
      (forall r, In r (typeRefs t) -> imageUnder f inv r) ->
      forall b, inv b ->
        exists b',
          reconstitute t b
          = (Throw (TypeError "reconstitute is not a function"), b')
          /\ inv b')
  /\ (forall v,
         Value_wellTyped v = false ->
         (forall r, In r (Value_typeRefs v) -> imageUnder f inv r) ->
         forall b, inv b ->
           exists b',
             Value_reconstitute v b
             = (Throw (TypeError "reconstitute is not a function"), b')
             /\ inv b').
Proof.
  apply Transformer_Value_mutind.
  - intros n Hn i Hi d Hd b Hb s Hs a Ha o Ho W R b0 Hb0.
    simpl in R.
    assert (Rn : forall r, In r (Value_typeRefs n) -> imageUnder f inv r)
      by (intros r Hr; apply R; repeat (rewrite in_app_iff); tauto).
    assert (Ri : forall r, In r (Value_typeRefs i) -> imageUnder f inv r)
      by (intros r Hr; apply R; repeat (rewrite in_app_iff); tauto).
    assert (Rd : forall r, In r (Value_typeRefs d) -> imageUnder f inv r)
      by (intros r Hr; apply R; repeat (rewrite in_app_iff); tauto).
    assert (Rb : forall r, In r (Value_typeRefs b) -> imageUnder f inv r)
      by (intros r Hr; apply R; repeat (rewrite in_app_iff); tauto).
    assert (Rs : forall r, In r (Value_typeRefs s) -> imageUnder f inv r)
      by (intros r Hr; apply R; repeat (rewrite in_app_iff); tauto).
    assert (Ra : forall r, In r (Value_typeRefs a) -> imageUnder f inv r)
      by (intros r Hr; apply R; repeat (rewrite in_app_iff); tauto).
    assert (Ro : forall r, In r (Value_typeRefs o) -> imageUnder f inv r)
      by (intros r Hr; apply R; repeat (rewrite in_app_iff); tauto).
    clear R. cbn [reconstitute].
    destruct (Value_wellTyped n) eqn:Wn;
      [ | destruct (Hn eq_refl Rn b0 Hb0) as [b' [E Hb']];
          exists b'; split; [exact (bind_Throw _ _ _ _ _ E) | exact Hb'] ].
    slotOk n Wn Rn b0 Hb0.
    destruct (Value_wellTyped i) eqn:Wi;
      [ | destruct (Hi eq_refl Ri b1 Hb1) as [b' [E Hb']];
          exists b'; split; [exact (bind_Throw _ _ _ _ _ E) | exact Hb'] ].
    slotOk i Wi Ri b1 Hb1.
    destruct (Value_wellTyped d) eqn:Wd;
      [ | destruct (Hd eq_refl Rd b2 Hb2) as [b' [E Hb']];
          exists b'; split; [exact (bind_Throw _ _ _ _ _ E) | exact Hb'] ].
    slotOk d Wd Rd b2 Hb2.
    destruct (Value_wellTyped b) eqn:Wb;
      [ | destruct (Hb eq_refl Rb b3 Hb3) as [b' [E Hb']];
          exists b'; split; [exact (bind_Throw _ _ _ _ _ E) | exact Hb'] ].
    slotOk b Wb Rb b3 Hb3.
    destruct (Value_wellTyped s) eqn:Ws;
      [ | destruct (Hs eq_refl Rs b4 Hb4) as [b' [E Hb']];
          exists b'; split; [exact (bind_Throw _ _ _ _ _ E) | exact Hb'] ].
    slotOk s Ws Rs b4 Hb4.
    destruct (Value_wellTyped a) eqn:Wa;
      [ | destruct (Ha eq_refl Ra b5 Hb5) as [b' [E Hb']];
          exists b'; split; [exact (bind_Throw _ _ _ _ _ E) | exact Hb'] ].
    slotOk a Wa Ra b5 Hb5.
    destruct (Value_wellTyped o) eqn:Wo;
      [ | destruct (Ho eq_refl Ro b6 Hb6) as [b' [E Hb']];
          exists b'; split; [exact (bind_Throw _ _ _ _ _ E) | exact Hb'] ].
    simpl in W. rewrite Wn, Wi, Wd, Wb, Ws, Wa, Wo in W. discriminate W.
  - intros r W. discriminate W.
  - intros W. discriminate W.
  - intros _ _ b Hb. exists b. now split.
  - intros r _ _ b Hb. exists b. now split.
  - intros t Ht W R b Hb. cbn [Value_reconstitute].
    destruct (Ht W R b Hb) as [b' [E Hb']].
    exists b'. split; [exact (bind_Throw _ _ _ _ _ E) | exact Hb'].
  - intros x _ _ b Hb. exists b. now split.
Qed.

(** X9.  On a builder that answers for every reference of the tree,
    [reconstitute] returns exactly on the transformers typed as declared:
    where a slot, at any depth, holds a value that is neither [undefined] nor
    a transformer, the call of its [reconstitute] throws a TypeError. *)
Theorem reconstitute_returns_iff_typed (t : Transformer) (b : B) :
  (forall r, In r (typeRefs t) -> imageUnder f inv r) ->
  inv b ->
  ((exists t' b', reconstitute t b = (Ok t', b')) <-> wellTyped t = true)
  /\ (wellTyped t = false ->
      exists b',
        reconstitute t b
        = (Throw (TypeError "reconstitute is not a function"), b')).
Proof.
  intros R Hb.
  assert (Hbad : wellTyped t = false ->
                 exists b',
                   reconstitute t b
                   = (Throw (TypeError "reconstitute is not a function"), b')).
  { intro W. destruct (proj1 reconstitute_illTyped t W R b Hb) as [b' [E _]].
    now exists b'. }
  split; [ | exact Hbad].
  split.
  - intros [t' [b' E]]. destruct (wellTyped t) eqn:W; [reflexivity | ].
    destruct (Hbad eq_refl) as [b'' E']. rewrite E in E'. discriminate E'.
  - intro W.
    destruct (proj1 (reconstitute_mapTypeRefs f inv) t W R b Hb) as [b' [E _]].
    now exists (mapTypeRefs f t), b'.
Qed.

End ReconstituteThrough.

Lemma ReconstituteExample_image_injective (r r' : TypeRef) :
  ReconstituteExample.image r = ReconstituteExample.image r' -> r = r'.
Proof. unfold ReconstituteExample.image. lia. Defined.

Lemma reconstitute_references_witness :
  exists t' b',
    reconstitute GetChildrenExample.decoding ReconstituteExample.builder
    = (Ok t', b')
    /\ typeRefs t' = [5; 4; 5].
Proof.
  destruct (reconstitute_references ReconstituteExample.image
              ReconstituteExample.inv GetChildrenExample.decoding
              ReconstituteExample.builder eq_refl)
    as [t' [b' [E [_ [Hrefs _]]]]].
  - intros r Hr. apply ReconstituteExample_images. cbv in Hr |- *. tauto.
  - reflexivity.
  - exists t', b'. split; [exact E | exact Hrefs].
Defined.

Lemma reconstitute_equals_witness :
  exists t1' b1' t2' b2',
    reconstitute GetChildrenExample.decoding ReconstituteExample.builder
    = (Ok t1', b1')
    /\ reconstitute (UnionInstantiationTransformer 1)
         ReconstituteExample.builder
       = (Ok t2', b2')
    /\ equals t1' (VTransformer t2') = false.
Proof.
  apply (reconstitute_equals ReconstituteExample.image ReconstituteExample.inv
           GetChildrenExample.decoding (UnionInstantiationTransformer 1)
           ReconstituteExample.builder ReconstituteExample.builder
           ReconstituteExample_image_injective eq_refl eq_refl).
  - intros r Hr. apply ReconstituteExample_images. cbv in Hr |- *. tauto.
  - reflexivity.
  - reflexivity.
Defined.

Lemma reconstitute_returns_iff_typed_witness :
  exists b',
    reconstitute SecondPassExample.illTyped ReconstituteExample.builder
    = (Throw (TypeError "reconstitute is not a function"), b').
Proof.
  apply (proj2 (reconstitute_returns_iff_typed ReconstituteExample.image
                  ReconstituteExample.inv SecondPassExample.illTyped
                  ReconstituteExample.builder
                  (fun r Hr =>
                     ReconstituteExample_images r
                       match Hr with
                       | or_introl E => or_introl E
                       | or_intror F => match F with end
                       end)
                  eq_refl)).
  reflexivity.
Defined.

Section ReconstituteTwice.

Context {B1 : Type} {H1 : BaseGraphRewriteBuilder B1}.
Context {B2 : Type} {H2 : BaseGraphRewriteBuilder B2}.

Variable f g : TypeRef -> TypeRef.
Variable inv1 : B1 -> Prop.
Variable inv2 : B2 -> Prop.

(** X10.  Two passes in a row: reconstituting with the builder of the
    second pass what the builder of the first pass returned gives the
    transformer whose references are the images of the images, in the same
    order, with nothing else changed. *)
Theorem reconstitute_twice (t : Transformer) (b1 : B1) (b2 : B2) :
  wellTyped t = true ->
  (forall r, In r (typeRefs t) -> imageUnder f inv1 r) ->
  (forall r, In r (typeRefs t) -> imageUnder g inv2 (f r)) ->
  inv1 b1 -> inv2 b2 ->
  exists t1 b1' t2 b2',
    reconstitute t b1 = (Ok t1, b1')
    /\ reconstitute t1 b2 = (Ok t2, b2')
    /\ typeRefs t2 = map (fun r => g (f r)) (typeRefs t)
    /\ t2 = mapTypeRefs (fun r => g (f r)) t.
Proof.
  intros W R1 R2 Hb1 Hb2.
  destruct (proj1 (reconstitute_mapTypeRefs f inv1) t W R1 b1 Hb1)
    as [b1' [E1 _]].
  assert (W1 : wellTyped (mapTypeRefs f t) = true)
    by (rewrite (proj1 (mapTypeRefs_wellTyped f) t); exact W).
  destruct (proj1 (reconstitute_mapTypeRefs g inv2) (mapTypeRefs f t) W1)
    with (b := b2) as [b2' [E2 _]]; [ | exact Hb2 | ].
  { intros r Hr. rewrite (proj1 (mapTypeRefs_typeRefs f) t) in Hr.
    apply in_map_iff in Hr. destruct Hr as [r0 [<- Hr0]]. now apply R2. }
  exists (mapTypeRefs f t), b1', (mapTypeRefs g (mapTypeRefs f t)), b2'.
  split; [exact E1 | ]. split; [exact E2 | ].
  rewrite (proj1 (mapTypeRefs_compose f g) t).
  split; [apply (proj1 (mapTypeRefs_typeRefs (fun r => g (f r))) t) | ].
  reflexivity.
Qed.

End ReconstituteTwice.

Lemma SecondPassExample_images (r : TypeRef) :
  In r [4; 5] ->
  imageUnder SecondPassExample.image SecondPassExample.inv r.
Proof.
  intros Hr b Hb. red in Hb. subst b. exists SecondPassExample.builder.
  simpl in Hr.
  destruct Hr as [<- | [<- | []]]; split; reflexivity.
Defined.

Lemma reconstitute_twice_witness :
  exists t1 b1' t2 b2',
    reconstitute GetChildrenExample.decoding ReconstituteExample.builder
    = (Ok t1, b1')
    /\ reconstitute t1 SecondPassExample.builder = (Ok t2, b2')
    /\ typeRefs t2 = [2; 1; 2]
    /\ t2 = GetChildrenExample.decoding.
Proof.
  apply (reconstitute_twice ReconstituteExample.image SecondPassExample.image
           ReconstituteExample.inv SecondPassExample.inv
           GetChildrenExample.decoding ReconstituteExample.builder
           SecondPassExample.builder eq_refl).
  - intros r Hr. apply ReconstituteExample_images. cbv in Hr |- *. tauto.
  - intros r Hr. apply SecondPassExample_images. cbv in Hr |- *.
    destruct Hr as [<- | [<- | [<- | []]]]; tauto.
  - reflexivity.
  - reflexivity.
Defined.

(** ** makeTransformations *)

Lemma In_allTypesUnordered (graph : TypeGraph) (t : Type_) :
  In t (allTypesUnordered graph) <-> In (Some t) graph.
Proof.
  unfold allTypesUnordered. rewrite in_flat_map. split.
  - intros [[u | ] [Hin Ht]]; simpl in Ht; [ | destruct Ht].
    destruct Ht as [-> | []]. exact Hin.
  - intro Hin. exists (Some t). split; [exact Hin | now left].
Qed.

Lemma concat_singletons {A : Type} (l : list A) :
  List.concat (map (fun x => [x]) l) = l.
Proof. induction l as [ | x l IH]; simpl; [reflexivity | now rewrite IH]. Qed.

Lemma filter_none {A : Type} (p : A -> bool) (l : list A) :
  (forall x, In x l -> p x = false) -> filter p l = [].
Proof.
  induction l as [ | x l IH]; intro Hp; simpl; [reflexivity | ].
  rewrite (Hp x (or_introl eq_refl)). apply IH.
  intros y Hy. apply Hp. now right.
Qed.

Section MakeTransformationsFacts.

Context {B : Type} `{GraphRewriteBuilder B}.

Variable StringTypeMapping : Type.
Variable rewrite :
  TypeGraph -> string -> StringTypeMapping -> bool -> list (list Type_) ->
  bool -> (list Type_ -> TypeRef -> Builder B TypeRef) -> Result TypeGraph.

(** X11.  [makeTransformations] is one call of [rewrite], with [replace] as
    the replacer, on groups that are exactly the singletons of the unions of
    the graph the target language wants a transformer for: no group holds
    two types, a type that is not a union or a union the predicate refuses,
    and every union it accepts has its group.  The groups share no type when
    the enumeration of the graph repeats none, and there is no group at all
    when the predicate accepts no union. *)
Theorem makeTransformations_groups
    (graph : TypeGraph) (stringTypeMapping : StringTypeMapping)
    (targetLanguage : TargetLanguage) (debugPrintReconstitution : bool) :
  exists groups,
    makeTransformations StringTypeMapping rewrite graph stringTypeMapping
      targetLanguage debugPrintReconstitution
    = rewrite graph "make-transformatios" stringTypeMapping false groups
        debugPrintReconstitution (replace graph)
    /\ (forall group,
           In group groups <->
           exists t,
             group = [t] /\ In (Some t) graph /\ isUnionType t = true
             /\ needsTransformerForUnion targetLanguage t = true)
    /\ (NoDup (allTypesUnordered graph) -> NoDup (List.concat groups))
    /\ ((forall t, In (Some t) graph -> isUnionType t = true ->
                   needsTransformerForUnion targetLanguage t = false) ->
        groups = []).
Proof.
  eexists. split; [reflexivity | ].
  split; [ | split].
  - intro group. rewrite in_map_iff. split.
    + intros [t [<- Ht]]. apply filter_In in Ht. destruct Ht as [Hin Hp].
      apply andb_true_iff in Hp. destruct Hp as [Hu Hn].
      exists t. repeat split; try assumption.
      now apply In_allTypesUnordered.
    + intros [t [-> [Hin [Hu Hn]]]]. exists t. split; [reflexivity | ].
      apply filter_In. split; [now apply In_allTypesUnordered | ].
      now rewrite Hu, Hn.
  - intro D. rewrite concat_singletons. now apply NoDup_filter.
  - intro Hnone.
    rewrite filter_none; [reflexivity | ].
    intros t Ht. apply In_allTypesUnordered in Ht.
    destruct (isUnionType t) eqn:Hu; [ | reflexivity].
    simpl. now apply Hnone.
Qed.

End MakeTransformationsFacts.

Lemma makeTransformations_groups_witness :
  makeTransformations unit
    (fun graph _ _ _ groups _
         (_ : list Type_ -> TypeRef -> Builder ArenaBuilder TypeRef) =>
       match groups with
       | [] => Ok graph
       | _ => panic "groups"
       end)
    Scenario.graphA tt {| needsTransformerForUnion := fun _ => false |} false
  = Ok Scenario.graphA.
Proof.
  destruct (makeTransformations_groups unit
              (fun graph _ _ _ groups _
                   (_ : list Type_ -> TypeRef -> Builder ArenaBuilder TypeRef) =>
                 match groups with
                 | [] => Ok graph
                 | _ => panic "groups"
                 end)
              Scenario.graphA tt
              {| needsTransformerForUnion := fun _ => false |} false)
    as [groups [E [_ [_ Hnone]]]].
  rewrite E, Hnone; reflexivity.
Defined.

(** ** The current file of the Scala renderer *)

Section ScalaRendererFacts.

Variable Sourcelike : Type.
Variable Base : Type.
Variable sourcelikeToString : Base -> Sourcelike -> string.
Variable super_finishFile : string -> Builder Base unit.

(** X12.  Files are started and finished in turn.  [startFile] while a file
    is open fails the assertion "Previous file wasn't finished" and changes
    nothing; [finishFile] while none is open panics before the renderer's
    own [finishFile] is called; and [startFile] followed by [finishFile],
    with no file open before, hands the basename with ".scala" appended to
    the renderer's [finishFile] and leaves no file open. *)
Theorem ScalaRenderer_files_in_turn
    (this : ScalaRenderer Base) (basename : Sourcelike) :
  (forall filename,
      _currentFilename Base this = Some filename ->
      startFile Sourcelike Base sourcelikeToString basename this
      = (Throw (AssertionFailure "Previous file wasn't finished"), this))
  /\ (_currentFilename Base this = None ->
      exists message,
        finishFile Base super_finishFile this = (Throw (Panic message), this))
  /\ (_currentFilename Base this = None ->
      forall base',
        super_finishFile
          (sourcelikeToString (super Base this) basename ++ ".scala")
          (super Base this)
        = (Ok tt, base') ->
        bind (startFile Sourcelike Base sourcelikeToString basename)
          (fun _ => finishFile Base super_finishFile) this
        = (Ok tt, mkScalaRenderer Base base' None)).
Proof.
  destruct this as [base current]. simpl.
  split; [ | split].
  - intros filename ->. reflexivity.
  - intros ->. eexists. reflexivity.
  - intros -> base' E. unfold bind, startFile, finishFile. simpl.
    now rewrite E.
Qed.

End ScalaRendererFacts.

Lemma ScalaRenderer_files_in_turn_witness :
  bind (startFile string (list string) ScalaExample.toString "Model.scala")
    (fun _ => finishFile (list string) ScalaExample.finish)
    (mkScalaRenderer (list string) [] None)
  = (Ok tt, mkScalaRenderer (list string) ["Model.scala.scala"] None).
Proof.
  apply (proj2 (proj2 (ScalaRenderer_files_in_turn string (list string)
                         ScalaExample.toString ScalaExample.finish
                         (mkScalaRenderer (list string) [] None)
                         "Model.scala")));
    reflexivity.
Defined.
